(** * PerformanceMetrics: a visibility-triggered animated counter

    Shallow embedding of [src/components/PerformanceMetrics.tsx].

    The component is a React function component with three effects: the
    catalog fetch, the one-shot [IntersectionObserver], and the
    [setInterval] loop that animates every metric from 0 to its final value.
    It is modelled as a state machine: a [Component] record holds the React
    state ([metricsData], [loading], [hasAnimated]), the ref
    [finalValues], and the resources the effects own (the pending fetch, the
    observer, the interval with its closure variable [currentStep]); the
    callbacks the browser may invoke are the constructors of [Event], and
    [step] runs one callback together with the re-render it causes.

    Numbers.  A JavaScript [number] is modelled by a real number: products,
    comparisons, [Math.floor], [Math.round] and [Math.pow] are the exact
    mathematical operations.  Rounding of binary64 arithmetic, NaN and the
    infinities are outside this model. *)

From Stdlib Require Import Reals Lra Lia ZArith List String Bool.
Import ListNotations.

Open Scope string_scope.
Open Scope Z_scope.
Open Scope R_scope.

(** ** JavaScript built-ins used by the component *)

Module JS.

Definition number : Type := R.

(** [Math.floor(x)]: the largest integer not above [x]. *)
Definition Math_floor (x : number) : number := IZR (Zfloor x).

(** [Math.round(x)]: the nearest integer, a tie going towards +infinity,
    which is [floor (x + 1/2)]. *)
Definition Math_round (x : number) : number := IZR (Zfloor (x + 0.5)).

(** [Math.pow(x, y)] for a positive base. *)
Definition Math_pow (x y : number) : number := Rpower x y.

(** [x === y] on numbers. *)
Definition strict_eq (x y : number) : bool :=
  if Req_dec_T x y then true else false.

(** [x < y] and [x <= y] on numbers. *)
Definition lt (x y : number) : bool := if Rlt_dec x y then true else false.
Definition le (x y : number) : bool := if Rle_dec x y then true else false.

(** The outcome of code that may throw. *)
Inductive Result (A : Type) : Type :=
| Ok (a : A)
| Throw (error : string).
Arguments Ok {A} a.
Arguments Throw {A} error.

End JS.

Import JS.

Infix "===" := strict_eq (at level 70, no associativity).
Infix "<?" := JS.lt (at level 70, no associativity) : R_scope.
Infix "<=?" := JS.le (at level 70, no associativity) : R_scope.

(** [Array.prototype.map] with a callback that takes the element and its
    index. *)
Fixpoint mapi_from {A B : Type} (f : A -> nat -> B) (index : nat) (l : list A)
  : list B :=
  match l with
  | [] => []
  | x :: l' => f x index :: mapi_from f (S index) l'
  end.

Definition mapi {A B : Type} (f : A -> nat -> B) (l : list A) : list B :=
  mapi_from f 0%nat l.

(** ** Data model *)

(** The four glyphs of [iconMap]. *)
Inductive ReactNode : Type :=
| ActivityIcon
| ClockIcon
| TrendingUpIcon
| ZapIcon.

Definition iconMap (key : string) : option ReactNode :=
  if String.eqb key "Activity" then Some ActivityIcon
  else if String.eqb key "Clock" then Some ClockIcon
  else if String.eqb key "TrendingUp" then Some TrendingUpIcon
  else if String.eqb key "Zap" then Some ZapIcon
  else None.

(** [interface MetricConfig]: one entry of [/config/metrics.json]. *)
Module MetricConfig.
Record t : Type := mk {
  id : string;
  label : string;
  value : number;
  suffix : string;
  icon : string;
  color : string;
  displayAsK : option bool
}.
End MetricConfig.

(** [interface MetricsData]. *)
Record MetricsData : Type := { metrics : list MetricConfig.t }.

(** [interface Metric]: the displayed state of one metric. *)
Module Metric.
Record t : Type := mk {
  id : string;
  label : string;
  value : number;
  suffix : string;
  icon : ReactNode;
  color : string
}.
End Metric.

(** ** The animation constants and the easing function *)

Definition easeOutExpoSlow (t : number) : number :=
  if t === 1 then 1 else 1 - Math_pow 2 (-10 * t) * 0.3.

Definition duration : number := 3500.
Definition steps : Z := 200.
Definition stepDuration : number := duration / IZR steps.

(** ** The per-metric update of a tick

    [formatValue] is the body of the callback given to [prevMetrics.map]:
    from the metric's position, its final value, the eased progress and the
    metric's present suffix it computes [currentValue] and [newSuffix]. *)

Definition formatValue (index : nat) (targetValue easedProgress : number)
    (suffix : string) : number * string :=
  if Nat.eqb index 3 then
    let rawValue := targetValue * easedProgress in
    if rawValue <? 999 then (Math_floor rawValue, "")
    else (1, "K+")
  else if targetValue <=? 5 then
    let rawValue := targetValue * easedProgress in
    if rawValue <? 0.5 then (0, suffix)
    else if rawValue <? 1.5 then (1, suffix)
    else if rawValue <? 2.5 then (2, suffix)
    else (Math_round rawValue, suffix)
  else (Math_floor (targetValue * easedProgress), suffix).

(** The callback itself.  [finalValues.current[index]] is read with
    [nth_error]; the two arrays are always assigned together (see
    [lengths_agree] below), so the lookup never falls outside the array, and
    the model leaves the metric as it is there. *)
Definition animateMetric (finalValues : list number) (easedProgress : number)
    (metric : Metric.t) (index : nat) : Metric.t :=
  match nth_error finalValues index with
  | Some targetValue =>
      let '(currentValue, newSuffix) :=
        formatValue index targetValue easedProgress (Metric.suffix metric) in
      Metric.mk (Metric.id metric) (Metric.label metric) currentValue
                newSuffix (Metric.icon metric) (Metric.color metric)
  | None => metric
  end.

(** ** The component *)

(** What the host page offers when the component mounts. *)
Record Window : Type := {
  (** is the global [IntersectionObserver] defined? *)
  IntersectionObserver_defined : bool;
  (** is [sectionRef.current] non-null when the effects run? *)
  sectionRef_current : bool
}.

Record IntersectionObserverEntry : Type := { isIntersecting : bool }.

(** The observer created by the second effect. *)
Inductive Observer : Type :=
| NoObserver          (* none has been constructed *)
| Idle                (* constructed, observing no element *)
| Observing           (* observing the section *)
| Disconnected.       (* [observer.disconnect()] was called *)

(** The interval created by the third effect, with the closure variable
    [currentStep] of its callback. *)
Inductive Interval : Type :=
| NoInterval
| Running (currentStep : Z)
| Cleared (currentStep : Z).

Record Component : Type := mkComponent {
  metricsData : list Metric.t;          (* useState<Metric[]>([]) *)
  loading : bool;                       (* useState(true) *)
  hasAnimated : bool;                   (* useState(false) *)
  finalValues : list number;            (* useRef<number[]>([]) *)
  mounted : bool;
  fetchPending : bool;
  observer : Observer;
  interval : Interval;
  console : list (string * string)      (* what [console.error] printed *)
}.

Definition initial : Component :=
  mkComponent [] true false [] true false NoObserver NoInterval [].

(** State setters: React drops an update of an unmounted component. *)
Definition setMetricsData (f : list Metric.t -> list Metric.t) (c : Component)
  : Component :=
  if mounted c
  then mkComponent (f (metricsData c)) (loading c) (hasAnimated c)
         (finalValues c) (mounted c) (fetchPending c) (observer c)
         (interval c) (console c)
  else c.

Definition setLoading (b : bool) (c : Component) : Component :=
  if mounted c
  then mkComponent (metricsData c) b (hasAnimated c) (finalValues c)
         (mounted c) (fetchPending c) (observer c) (interval c) (console c)
  else c.

Definition set_finalValues (v : list number) (c : Component) : Component :=
  mkComponent (metricsData c) (loading c) (hasAnimated c) v (mounted c)
    (fetchPending c) (observer c) (interval c) (console c).

Definition set_fetchPending (b : bool) (c : Component) : Component :=
  mkComponent (metricsData c) (loading c) (hasAnimated c) (finalValues c)
    (mounted c) b (observer c) (interval c) (console c).

Definition set_observer (o : Observer) (c : Component) : Component :=
  mkComponent (metricsData c) (loading c) (hasAnimated c) (finalValues c)
    (mounted c) (fetchPending c) o (interval c) (console c).

Definition set_interval (i : Interval) (c : Component) : Component :=
  mkComponent (metricsData c) (loading c) (hasAnimated c) (finalValues c)
    (mounted c) (fetchPending c) (observer c) i (console c).

Definition console_error (msg err : string) (c : Component) : Component :=
  mkComponent (metricsData c) (loading c) (hasAnimated c) (finalValues c)
    (mounted c) (fetchPending c) (observer c) (interval c)
    (console c ++ [(msg, err)]).

(** *** First effect: the catalog fetch *)

Definition initialMetric (metric : MetricConfig.t) : Metric.t :=
  Metric.mk (MetricConfig.id metric) (MetricConfig.label metric) 0
    (MetricConfig.suffix metric)
    (match iconMap (MetricConfig.icon metric) with
     | Some node => node
     | None => ActivityIcon
     end)
    (MetricConfig.color metric).

(** The second [.then] callback. *)
Definition onData (data : MetricsData) (c : Component) : Component :=
  let c := set_finalValues (map MetricConfig.value (metrics data)) c in
  let initialMetrics := map initialMetric (metrics data) in
  let c := setMetricsData (fun _ => initialMetrics) c in
  setLoading false c.

(** The [.catch] callback. *)
Definition onError (err : string) (c : Component) : Component :=
  let c := console_error "Error loading metrics config:" err c in
  setLoading false c.

(** What [fetch] settles with: a response whose body [res.json()] parses, a
    response whose body does not parse, or a rejection. *)
Inductive Response : Type :=
| JsonBody (data : MetricsData)
| Malformed (err : string).

(** *** Third effect: the interval *)

(** The effect body for [hasAnimated = true]: [currentStep = 0] and
    [setInterval]. *)
Definition effectAnimation (c : Component) : Component :=
  if negb (hasAnimated c) then c
  else set_interval (Running 0) c.

Definition clearInterval (c : Component) : Component :=
  match interval c with
  | Running currentStep => set_interval (Cleared currentStep) c
  | _ => c
  end.

(** The interval callback, run when the closure holds [currentStep]. *)
Definition onTick (currentStep : Z) (c : Component) : Component :=
  let currentStep := (currentStep + 1)%Z in
  let c := set_interval (Running currentStep) c in
  let progress := IZR currentStep / IZR steps in
  let easedProgress := easeOutExpoSlow progress in
  let c :=
    setMetricsData (mapi (animateMetric (finalValues c) easedProgress)) c in
  if (steps <=? currentStep)%Z then clearInterval c else c.

(** *** Second effect: the visibility observer *)

(** The effect body on mount ([hasAnimated = false]). *)
Definition effectObserver (w : Window) (c : Component) : Result Component :=
  if negb (hasAnimated c) then
    if IntersectionObserver_defined w then
      Ok (set_observer (if sectionRef_current w then Observing else Idle) c)
    else Throw "ReferenceError: IntersectionObserver is not defined"
  else Ok c.

(** The cleanup [() => observer.disconnect()] of the second effect. *)
Definition disconnect (c : Component) : Component :=
  match observer c with
  | NoObserver => c
  | _ => set_observer Disconnected c
  end.

(** [setHasAnimated(true)] and the re-render it causes: a call that does not
    change the state is dropped; otherwise both effects that depend on
    [hasAnimated] are cleaned up and run again, the second one doing nothing
    now and the third one starting the interval. *)
Definition setHasAnimated_true (c : Component) : Component :=
  if negb (mounted c) then c
  else if hasAnimated c then c
  else
    let c := mkComponent (metricsData c) (loading c) true (finalValues c)
               (mounted c) (fetchPending c) (observer c) (interval c)
               (console c) in
    let c := disconnect c in
    effectAnimation c.

(** The observer callback. *)
Definition onIntersect (entries : list IntersectionObserverEntry)
    (c : Component) : Component :=
  fold_left
    (fun c entry => if isIntersecting entry then setHasAnimated_true c else c)
    entries c.

(** *** Mounting, events, rendering *)

(** The first render followed by the three effects in order. *)
Definition mount (w : Window) : Result Component :=
  let c := set_fetchPending true initial in
  match effectObserver w c with
  | Ok c => Ok (effectAnimation c)
  | Throw e => Throw e
  end.

(** The cleanups run on unmount. *)
Definition unmount (c : Component) : Component :=
  let c := disconnect c in
  let c := clearInterval c in
  mkComponent (metricsData c) (loading c) (hasAnimated c) (finalValues c)
    false (fetchPending c) (observer c) (interval c) (console c).

Inductive Event : Type :=
| FetchFulfilled (res : Response)
| FetchRejected (err : string)
| Intersection (entries : list IntersectionObserverEntry)
| Tick
| Unmount.

(** One callback.  A callback of a resource that is not live (a fetch that
    has settled, an observer that observes nothing, an interval that is not
    running) is never invoked, so such an event leaves the state alone. *)
Definition step (c : Component) (ev : Event) : Component :=
  match ev with
  | FetchFulfilled res =>
      if fetchPending c then
        let c := set_fetchPending false c in
        match res with
        | JsonBody data => onData data c
        | Malformed err => onError err c
        end
      else c
  | FetchRejected err =>
      if fetchPending c then onError err (set_fetchPending false c) else c
  | Intersection entries =>
      match observer c with
      | Observing => onIntersect entries c
      | _ => c
      end
  | Tick =>
      match interval c with
      | Running currentStep => onTick currentStep c
      | _ => c
      end
  | Unmount => if mounted c then unmount c else c
  end.

Definition run (c : Component) (evs : list Event) : Component :=
  fold_left step evs c.

(** What the component returns. *)
Record Card : Type := {
  card_key : string;
  card_icon : ReactNode;
  card_color : string;
  card_text : number * string;          (* {metric.value}{metric.suffix} *)
  card_label : string
}.

Inductive View : Type :=
| LoadingView
| MetricsView (cards : list Card).

Definition card (metric : Metric.t) : Card :=
  {| card_key := Metric.id metric;
     card_icon := Metric.icon metric;
     card_color := Metric.color metric;
     card_text := (Metric.value metric, Metric.suffix metric);
     card_label := Metric.label metric |}.

Definition render (c : Component) : View :=
  if loading c then LoadingView
  else MetricsView (map card (metricsData c)).

(** The pair shown for the metric at position [index]. *)
Definition displayed (c : Component) (index : nat) : option (number * string) :=
  option_map (fun metric => (Metric.value metric, Metric.suffix metric))
    (nth_error (metricsData c) index).

(** ** Sessions

    [session data k]: the catalog arrives, the section scrolls into view,
    and the interval fires [k] times. *)

Definition visible : Event := Intersection [ {| isIntersecting := true |} ].

Definition session (data : MetricsData) (k : nat) : list Event :=
  FetchFulfilled (JsonBody data) :: visible :: repeat Tick k.

(** The state a session ends in, in closed form: every tick recomputes the
    metrics from the final values, so only the last tick that ran shows. *)
Definition frame (data : MetricsData) (k : nat) : Component :=
  let finals := map MetricConfig.value (metrics data) in
  let initialMetrics := map initialMetric (metrics data) in
  mkComponent
    (match k with
     | O => initialMetrics
     | S _ =>
         mapi (animateMetric finals
                 (easeOutExpoSlow (IZR (Z.of_nat (Nat.min k 200)) / IZR steps)))
           initialMetrics
     end)
    false true finals true false Disconnected
    (if (k <? 200)%nat then Running (Z.of_nat k) else Cleared 200)
    [].

(** "The final tick leaves the metric at [index] exactly on its final
    value", for a final value that is a non-negative integer. *)
Definition converges_exactly (data : MetricsData) (index : nat) : Prop :=
  forall (w : Window) (c0 : Component) (cfg : MetricConfig.t) (n : Z),
    mount w = Ok c0 ->
    sectionRef_current w = true ->
    nth_error (metrics data) index = Some cfg ->
    MetricConfig.value cfg = IZR n ->
    (0 <= n)%Z ->
    option_map fst (displayed (run c0 (session data 200)) index)
    = Some (MetricConfig.value cfg).

(** How often a transition recognised by [p] happens along a trace. *)
Fixpoint count_along (p : Component -> Component -> bool) (c : Component)
    (evs : list Event) : nat :=
  match evs with
  | [] => 0%nat
  | ev :: evs' =>
      ((if p c (step c ev) then 1 else 0) + count_along p (step c ev) evs')%nat
  end.

(** The trigger fires: [hasAnimated] goes from [false] to [true]. *)
Definition fires (c c' : Component) : bool :=
  negb (hasAnimated c) && hasAnimated c'.

(** An interval is created. *)
Definition starts_interval (c c' : Component) : bool :=
  match interval c, interval c' with
  | NoInterval, Running _ => true
  | NoInterval, Cleared _ => true
  | _, _ => false
  end.

(** The closure variable [currentStep], once an interval exists. *)
Definition currentStep (c : Component) : option Z :=
  match interval c with
  | NoInterval => None
  | Running n => Some n
  | Cleared n => Some n
  end.

(** "Without the observer the trigger fires on mount": mounting succeeds
    and leaves [hasAnimated] set. *)
Definition fires_on_mount (w : Window) : Prop :=
  exists c : Component, mount w = Ok c /\ hasAnimated c = true.

(** The callbacks of the observer and of the interval. *)
Definition scroll_or_tick (ev : Event) : bool :=
  match ev with
  | Intersection _ | Tick => true
  | _ => false
  end.

(** An event of the catalog fetch. *)
Definition is_fetch_event (ev : Event) : bool :=
  match ev with
  | FetchFulfilled _ | FetchRejected _ => true
  | _ => false
  end.

(** A settlement of the fetch that ends in the [.catch] callback. *)
Inductive load_failure : Event -> string -> Prop :=
| failure_rejected err : load_failure (FetchRejected err) err
| failure_parse err : load_failure (FetchFulfilled (Malformed err)) err.

(** Two catalogs that differ at most in the [displayAsK] fields. *)
Definition forget_displayAsK (m : MetricConfig.t) : MetricConfig.t :=
  MetricConfig.mk (MetricConfig.id m) (MetricConfig.label m)
    (MetricConfig.value m) (MetricConfig.suffix m) (MetricConfig.icon m)
    (MetricConfig.color m) None.

Definition same_but_displayAsK (d1 d2 : MetricsData) : Prop :=
  map forget_displayAsK (metrics d1) = map forget_displayAsK (metrics d2).

(** What one callback can do to the flag and to the interval. *)
Inductive transition (c c' : Component) (ev : Event) : Prop :=
| tr_same :
    hasAnimated c' = hasAnimated c -> interval c' = interval c ->
    transition c c' ev
| tr_tick n :
    hasAnimated c' = hasAnimated c -> ev = Tick ->
    interval c = Running n ->
    interval c' = (if (steps <=? n + 1)%Z then Cleared (n + 1) else Running (n + 1)) ->
    transition c c' ev
| tr_unmount n :
    hasAnimated c' = hasAnimated c -> ev = Unmount ->
    interval c = Running n -> interval c' = Cleared n ->
    transition c c' ev
| tr_fire entries :
    ev = Intersection entries ->
    existsb isIntersecting entries = true ->
    observer c = Observing ->
    hasAnimated c = false -> hasAnimated c' = true ->
    interval c' = Running 0 ->
    transition c c' ev.

(** The interval exists only once the trigger has fired. *)
Definition interval_after_trigger (c : Component) : Prop :=
  interval c = NoInterval \/ hasAnimated c = true.

(** While the component is mounted, [finalValues.current] and [metricsData]
    have the same length; an unmounted component has no running interval. *)
Definition arrays_agree (c : Component) : Prop :=
  (mounted c = true ->
   List.length (finalValues c) = List.length (metricsData c))
  /\ (mounted c = false -> forall n, interval c <> Running n).

(** The component waits for the catalog: nothing is loaded or logged yet. *)
Definition awaiting_catalog (c : Component) : Prop :=
  metricsData c = [] /\ finalValues c = [] /\ fetchPending c = true
  /\ mounted c = true /\ loading c = true /\ console c = [].

(** The load has failed with [err]: the error is logged, the loading flag
    is down and there are no metrics. *)
Definition load_failed (err : string) (c : Component) : Prop :=
  metricsData c = [] /\ finalValues c = [] /\ fetchPending c = false
  /\ loading c = false
  /\ console c = [("Error loading metrics config:", err)].

(** The fields of a metric that the animation passes on: the spread
    [{ ...metric, value, suffix }] overwrites the other two. *)
Definition static (metric : Metric.t)
  : string * string * ReactNode * string :=
  (Metric.id metric, Metric.label metric, Metric.icon metric,
   Metric.color metric).

(** The trigger fires first and the interval runs [j] times before the
    catalog arrives; [post] happens afterwards. *)
Definition late_catalog (data : MetricsData) (j : nat) (post : list Event)
  : list Event :=
  visible :: (repeat Tick j ++ FetchFulfilled (JsonBody data) :: post)%list.

(** The component after the trigger and [j] ticks, the catalog still
    pending: the ticks have counted but found no metric to update. *)
Definition waiting (j : nat) : Component :=
  mkComponent [] true true [] true true Disconnected
    (if (j <? 200)%nat then Running (Z.of_nat j) else Cleared 200) [].

(** No callback of the interval or of the observer can run any more, and a
    settled fetch can no longer reach the React state. *)
Definition quiescent (c : Component) : Prop :=
  (forall n, interval c <> Running n)
  /\ observer c <> Observing
  /\ (fetchPending c = false \/ mounted c = false).

(** ** Concrete inputs *)

Definition browser : Window :=
  {| IntersectionObserver_defined := true; sectionRef_current := true |}.

Definition legacy_browser : Window :=
  {| IntersectionObserver_defined := false; sectionRef_current := true |}.

(** The component right after it has mounted in [browser]. *)
Definition fresh : Component :=
  mkComponent [] true false [] true true Observing NoInterval [].

Definition metric_of (id : string) (value : number) (suffix : string)
  : MetricConfig.t :=
  MetricConfig.mk id id value suffix "Clock" "blue" None.

(** Four metrics, the fourth one with the final value 1500. *)
Definition catalogB : MetricsData :=
  {| metrics := [ metric_of "a" 42 "ms"; metric_of "b" 3 "x";
                  metric_of "c" 99 "%"; metric_of "d" 1500 "+" ] |}.

(** [catalogB] with [displayAsK] set on every metric. *)
Definition catalogB_K : MetricsData :=
  {| metrics :=
       map (fun m => MetricConfig.mk (MetricConfig.id m) (MetricConfig.label m)
                       (MetricConfig.value m) (MetricConfig.suffix m)
                       (MetricConfig.icon m) (MetricConfig.color m)
                       (Some true))
           (metrics catalogB) |}.

(** Four metrics, the fourth one with the final value 1100. *)
Definition catalogD : MetricsData :=
  {| metrics := [ metric_of "a" 42 "ms"; metric_of "b" 3 "x";
                  metric_of "c" 99 "%"; metric_of "d" 1100 "+" ] |}.

(** One metric whose raw value at the first tick is 1.4. *)
Definition catalogC : MetricsData :=
  {| metrics := [ metric_of "s" (1.4 / easeOutExpoSlow (1 / IZR steps)) "" ] |}.

(** * Properties *)

(** ** Numbers *)

Lemma lt_true (x y : R) : x < y -> (x <? y) = true.
Proof. intros H. unfold JS.lt. destruct (Rlt_dec x y); [reflexivity | contradiction]. Qed.

Lemma lt_false (x y : R) : y <= x -> (x <? y) = false.
Proof. intros H. unfold JS.lt. destruct (Rlt_dec x y); [lra | reflexivity]. Qed.

Lemma le_true (x y : R) : x <= y -> (x <=? y) = true.
Proof. intros H. unfold JS.le. destruct (Rle_dec x y); [reflexivity | contradiction]. Qed.

Lemma le_false (x y : R) : y < x -> (x <=? y) = false.
Proof. intros H. unfold JS.le. destruct (Rle_dec x y); [lra | reflexivity]. Qed.

Lemma strict_eq_true (x y : R) : x = y -> (x === y) = true.
Proof. intros H. unfold strict_eq. destruct (Req_dec_T x y); [reflexivity | contradiction]. Qed.

Lemma strict_eq_false (x y : R) : x <> y -> (x === y) = false.
Proof. intros H. unfold strict_eq. destruct (Req_dec_T x y); [contradiction | reflexivity]. Qed.

Lemma Math_floor_integer (n : Z) : Math_floor (IZR n) = IZR n.
Proof. unfold Math_floor. now rewrite ZfloorZ. Qed.

Lemma Math_floor_unique (n : Z) (x : R) :
  IZR n <= x < IZR n + 1 -> Math_floor x = IZR n.
Proof. intros H. unfold Math_floor. now rewrite (Zfloor_eq n x H). Qed.

Lemma Math_floor_le (x y : R) : x <= y -> Math_floor x <= Math_floor y.
Proof. intros H. unfold Math_floor. apply IZR_le, Zfloor_le, H. Qed.

Lemma Math_round_integer (n : Z) : Math_round (IZR n) = IZR n.
Proof. apply Math_floor_unique. lra. Qed.

Lemma Math_round_le (x y : R) : x <= y -> Math_round x <= Math_round y.
Proof. intros H. apply Math_floor_le. lra. Qed.

Lemma Math_round_lower (n : Z) (x : R) : IZR n - 0.5 <= x -> IZR n <= Math_round x.
Proof.
  intros H. unfold Math_round. apply IZR_le, Zfloor_lub. lra.
Qed.

(** ** The easing function *)

Lemma pow2_pos (y : R) : 0 < Math_pow 2 y.
Proof. unfold Math_pow, Rpower. apply exp_pos. Qed.

Lemma pow2_le (x y : R) : x <= y -> Math_pow 2 x <= Math_pow 2 y.
Proof. intros H. unfold Math_pow. apply Rle_Rpower; lra. Qed.

Lemma ease_at_1 : easeOutExpoSlow 1 = 1.
Proof. unfold easeOutExpoSlow. now rewrite strict_eq_true. Qed.

Lemma ease_formula (t : R) :
  t <> 1 -> easeOutExpoSlow t = 1 - Math_pow 2 (-10 * t) * 0.3.
Proof. intros H. unfold easeOutExpoSlow. now rewrite strict_eq_false. Qed.

Lemma ease_le_1 (t : R) : easeOutExpoSlow t <= 1.
Proof.
  destruct (Req_dec_T t 1) as [-> | Hne].
  - rewrite ease_at_1. lra.
  - rewrite (ease_formula t Hne). pose proof (pow2_pos (-10 * t)). lra.
Qed.

Lemma ease_monotone (t1 t2 : R) :
  t1 <= t2 -> t2 <= 1 -> easeOutExpoSlow t1 <= easeOutExpoSlow t2.
Proof.
  intros H12 H2.
  destruct (Req_dec_T t2 1) as [-> | Hne2].
  - rewrite ease_at_1. apply ease_le_1.
  - rewrite (ease_formula t2 Hne2), (ease_formula t1) by lra.
    assert (Math_pow 2 (-10 * t2) <= Math_pow 2 (-10 * t1)) by (apply pow2_le; lra).
    lra.
Qed.

Lemma ease_lower (t : R) : 0 <= t -> 0.7 <= easeOutExpoSlow t.
Proof.
  intros H. destruct (Req_dec_T t 1) as [-> | Hne].
  - rewrite ease_at_1. lra.
  - rewrite (ease_formula t Hne).
    assert (Math_pow 2 (-10 * t) <= Math_pow 2 0) by (apply pow2_le; lra).
    unfold Math_pow in H0 at 2. rewrite Rpower_O in H0 by lra. lra.
Qed.

(** ** Lists *)

Lemma nth_error_mapi_from {A B : Type} (f : A -> nat -> B) (l : list A) :
  forall start i,
    nth_error (mapi_from f start l) i
    = option_map (fun x => f x (start + i)%nat) (nth_error l i).
Proof.
  induction l as [| x l IH]; intros start i.
  - destruct i; reflexivity.
  - destruct i as [| i]; simpl.
    + now rewrite Nat.add_0_r.
    + rewrite IH. now rewrite Nat.add_succ_r.
Qed.

Lemma nth_error_mapi {A B : Type} (f : A -> nat -> B) (l : list A) (i : nat) :
  nth_error (mapi f l) i = option_map (fun x => f x i) (nth_error l i).
Proof. unfold mapi. now rewrite nth_error_mapi_from. Qed.

Lemma length_mapi_from {A B : Type} (f : A -> nat -> B) (l : list A) :
  forall start, List.length (mapi_from f start l) = List.length l.
Proof. induction l as [| x l IH]; intros start; simpl; [| rewrite IH]; reflexivity. Qed.

Lemma length_mapi {A B : Type} (f : A -> nat -> B) (l : list A) :
  List.length (mapi f l) = List.length l.
Proof. apply length_mapi_from. Qed.

(** ** One tick *)

Arguments easeOutExpoSlow : simpl never.
Arguments formatValue : simpl never.
Arguments IZR : simpl never.

Lemma step_Tick (c : Component) (n : Z) :
  interval c = Running n -> step c Tick = onTick n c.
Proof. intros H. simpl. now rewrite H. Qed.

Lemma step_Tick_idle (c : Component) :
  (forall n, interval c <> Running n) -> step c Tick = c.
Proof.
  intros H. simpl. destruct (interval c) as [| n | n]; try reflexivity.
  now destruct (H n).
Qed.

Lemma onTick_metricsData (c : Component) (n : Z) :
  mounted c = true ->
  metricsData (onTick n c)
  = mapi (animateMetric (finalValues c)
            (easeOutExpoSlow (IZR (n + 1) / IZR steps)))
      (metricsData c).
Proof.
  intros Hm. unfold onTick, setMetricsData, clearInterval. simpl.
  rewrite Hm. destruct (steps <=? n + 1)%Z; reflexivity.
Qed.

Lemma onTick_interval (c : Component) (n : Z) :
  interval (onTick n c)
  = if (steps <=? n + 1)%Z then Cleared (n + 1) else Running (n + 1).
Proof.
  unfold onTick, setMetricsData, clearInterval. simpl.
  destruct (mounted c), (steps <=? n + 1)%Z; reflexivity.
Qed.

Lemma onTick_frame (c : Component) (n : Z) :
  loading (onTick n c) = loading c
  /\ hasAnimated (onTick n c) = hasAnimated c
  /\ finalValues (onTick n c) = finalValues c
  /\ mounted (onTick n c) = mounted c
  /\ fetchPending (onTick n c) = fetchPending c
  /\ observer (onTick n c) = observer c
  /\ console (onTick n c) = console c.
Proof.
  destruct c as [md ld ha fv mo fp ob iv co].
  unfold onTick, setMetricsData, clearInterval. simpl.
  destruct mo, (steps <=? n + 1)%Z; simpl; repeat split; reflexivity.
Qed.

(** The pair a tick leaves at position [i]. *)
Lemma tick_displayed (c : Component) (n : Z) (i : nat) (targetValue : R)
    (metric : Metric.t) :
  interval c = Running n ->
  mounted c = true ->
  nth_error (finalValues c) i = Some targetValue ->
  nth_error (metricsData c) i = Some metric ->
  displayed (step c Tick) i
  = Some (formatValue i targetValue
            (easeOutExpoSlow (IZR (n + 1) / IZR steps))
            (Metric.suffix metric)).
Proof.
  intros Hi Hm Hf Hd. rewrite (step_Tick c n Hi).
  unfold displayed. rewrite onTick_metricsData by assumption.
  rewrite nth_error_mapi, Hd. simpl. unfold animateMetric. rewrite Hf.
  destruct (formatValue i targetValue _ _) as [v s]. reflexivity.
Qed.

(** ** The formatter *)

Lemma formatValue_rebase (i : nat) (t e e' : R) (s : string) :
  formatValue i t e' (snd (formatValue i t e s)) = formatValue i t e' s.
Proof.
  unfold formatValue. destruct (Nat.eqb i 3); [reflexivity |].
  destruct (t <=? 5); [| reflexivity].
  destruct (t * e <? 0.5); [reflexivity |].
  destruct (t * e <? 1.5); [reflexivity |].
  destruct (t * e <? 2.5); reflexivity.
Qed.

Lemma animateMetric_again (fv : list number) (e e' : R) (m : Metric.t) (i : nat) :
  animateMetric fv e' (animateMetric fv e m i) i = animateMetric fv e' m i.
Proof.
  destruct (nth_error fv i) as [t |] eqn:Ht.
  - unfold animateMetric at 2. rewrite Ht.
    destruct (formatValue i t e (Metric.suffix m)) as [v s] eqn:Hf.
    unfold animateMetric. rewrite Ht. simpl.
    replace s with (snd (formatValue i t e (Metric.suffix m)))
      by now rewrite Hf.
    now rewrite formatValue_rebase.
  - unfold animateMetric. now rewrite Ht.
Qed.

Lemma mapi_from_animate_again (fv : list number) (e e' : R) (l : list Metric.t) :
  forall start,
    mapi_from (animateMetric fv e') start (mapi_from (animateMetric fv e) start l)
    = mapi_from (animateMetric fv e') start l.
Proof.
  induction l as [| m l IH]; intros start; simpl; [reflexivity |].
  now rewrite animateMetric_again, IH.
Qed.

Lemma formatValue_large (t e : R) (s : string) :
  formatValue 3 t e s
  = if t * e <? 999 then (Math_floor (t * e), "") else (1, "K+").
Proof. reflexivity. Qed.

Lemma formatValue_small (i : nat) (t e : R) (s : string) :
  i <> 3%nat -> t <= 5 ->
  formatValue i t e s
  = (if t * e <? 0.5 then 0
     else if t * e <? 1.5 then 1
     else if t * e <? 2.5 then 2
     else Math_round (t * e), s).
Proof.
  intros Hi Ht. unfold formatValue.
  rewrite (proj2 (Nat.eqb_neq i 3) Hi), (le_true t 5 Ht).
  destruct (t * e <? 0.5); [reflexivity |].
  destruct (t * e <? 1.5); [reflexivity |].
  destruct (t * e <? 2.5); reflexivity.
Qed.

Lemma formatValue_standard (i : nat) (t e : R) (s : string) :
  i <> 3%nat -> 5 < t ->
  formatValue i t e s = (Math_floor (t * e), s).
Proof.
  intros Hi Ht. unfold formatValue.
  now rewrite (proj2 (Nat.eqb_neq i 3) Hi), (le_false t 5 Ht).
Qed.

(** The snapping of the small-target rule, as a function of the raw value. *)
Lemma snap_monotone (x y : R) :
  x <= y ->
  (if x <? 0.5 then 0 else if x <? 1.5 then 1 else if x <? 2.5 then 2
   else Math_round x)
  <= (if y <? 0.5 then 0 else if y <? 1.5 then 1 else if y <? 2.5 then 2
      else Math_round y).
Proof.
  intros Hxy. unfold JS.lt.
  assert (H3 : forall z, 2.5 <= z -> 3 <= Math_round z).
  { intros z Hz. apply (Math_round_lower 3). lra. }
  destruct (Rlt_dec x 0.5), (Rlt_dec x 1.5), (Rlt_dec x 2.5),
    (Rlt_dec y 0.5), (Rlt_dec y 1.5), (Rlt_dec y 2.5); try lra;
  try (specialize (H3 y ltac:(lra)); lra).
  apply Math_round_le, Hxy.
Qed.

(** ** Mounting and sessions *)

Lemma mount_Ok (w : Window) (c0 : Component) :
  mount w = Ok c0 ->
  IntersectionObserver_defined w = true
  /\ c0 = mkComponent [] true false [] true true
            (if sectionRef_current w then Observing else Idle) NoInterval [].
Proof.
  unfold mount, effectObserver, effectAnimation. simpl.
  destruct (IntersectionObserver_defined w); [| discriminate].
  intros H. injection H as <-. split; reflexivity.
Qed.

Lemma run_app (c : Component) (evs evs' : list Event) :
  run c (evs ++ evs')%list = run (run c evs) evs'.
Proof. apply fold_left_app. Qed.

Lemma run_snoc (c : Component) (evs : list Event) (ev : Event) :
  run c (evs ++ [ev])%list = step (run c evs) ev.
Proof. now rewrite run_app. Qed.

Lemma session_S (data : MetricsData) (k : nat) :
  session data (S k) = (session data k ++ [Tick])%list.
Proof.
  unfold session. simpl. do 2 f_equal. apply repeat_cons.
Qed.

Lemma Component_ext (c c' : Component) :
  metricsData c = metricsData c' ->
  interval c = interval c' ->
  loading c = loading c'
  /\ hasAnimated c = hasAnimated c'
  /\ finalValues c = finalValues c'
  /\ mounted c = mounted c'
  /\ fetchPending c = fetchPending c'
  /\ observer c = observer c'
  /\ console c = console c' ->
  c = c'.
Proof.
  destruct c, c'. simpl. intros -> -> (-> & -> & -> & -> & -> & -> & ->).
  reflexivity.
Qed.

Lemma frame_metricsData_S (data : MetricsData) (k : nat) :
  metricsData (frame data (S k))
  = mapi (animateMetric (map MetricConfig.value (metrics data))
            (easeOutExpoSlow (IZR (Z.of_nat (Nat.min (S k) 200)) / IZR steps)))
      (map initialMetric (metrics data)).
Proof. reflexivity. Qed.

Lemma frame_interval (data : MetricsData) (k : nat) :
  interval (frame data k)
  = if (k <? 200)%nat then Running (Z.of_nat k) else Cleared 200.
Proof. reflexivity. Qed.

Lemma frame_tick (data : MetricsData) (k : nat) :
  step (frame data k) Tick = frame data (S k).
Proof.
  pose proof (frame_interval data k) as Hi.
  destruct (Nat.ltb_spec k 200) as [Hlt | Hge].
  - rewrite (step_Tick _ _ Hi).
    apply Component_ext.
    + rewrite onTick_metricsData by reflexivity.
      rewrite frame_metricsData_S.
      replace (Z.of_nat (Nat.min (S k) 200)) with (Z.of_nat k + 1)%Z by lia.
      destruct k as [| k]; [reflexivity |].
      rewrite frame_metricsData_S. unfold mapi.
      now rewrite mapi_from_animate_again.
    + rewrite onTick_interval, frame_interval. unfold steps.
      destruct (Z.leb_spec 200 (Z.of_nat k + 1)) as [Hs | Hs];
        destruct (Nat.ltb_spec (S k) 200) as [Hs' | Hs']; try lia.
      * f_equal. lia.
      * f_equal. lia.
    + pose proof (onTick_frame (frame data k) (Z.of_nat k)) as H.
      exact H.
  - rewrite step_Tick_idle by (rewrite Hi; discriminate).
    apply Component_ext.
    + destruct k as [| k]; [lia |]. rewrite !frame_metricsData_S.
      now replace (Nat.min (S (S k)) 200) with (Nat.min (S k) 200) by lia.
    + rewrite Hi, frame_interval.
      destruct (Nat.ltb_spec (S k) 200); [lia | reflexivity].
    + repeat split; reflexivity.
Qed.

Lemma session_frame (w : Window) (c0 : Component) (data : MetricsData) (k : nat) :
  mount w = Ok c0 ->
  sectionRef_current w = true ->
  run c0 (session data k) = frame data k.
Proof.
  intros Hm Hs. apply mount_Ok in Hm as [_ ->]. rewrite Hs.
  induction k as [| k IH].
  - reflexivity.
  - rewrite session_S, run_app, IH. apply frame_tick.
Qed.

Lemma frame_displayed (data : MetricsData) (k i : nat) (cfg : MetricConfig.t) :
  nth_error (metrics data) i = Some cfg ->
  (1 <= k <= 200)%nat ->
  displayed (frame data k) i
  = Some (formatValue i (MetricConfig.value cfg)
            (easeOutExpoSlow (IZR (Z.of_nat k) / IZR steps))
            (MetricConfig.suffix cfg)).
Proof.
  intros Hc Hk. destruct k as [| k]; [lia |].
  unfold displayed. rewrite frame_metricsData_S.
  replace (Nat.min (S k) 200) with (S k) by lia.
  rewrite nth_error_mapi, nth_error_map, Hc. simpl.
  unfold animateMetric. rewrite nth_error_map, Hc. simpl.
  destruct (formatValue i _ _ _) as [v s]. reflexivity.
Qed.

Lemma frame_displayed_0 (data : MetricsData) (i : nat) (cfg : MetricConfig.t) :
  nth_error (metrics data) i = Some cfg ->
  displayed (frame data 0) i = Some (0, MetricConfig.suffix cfg).
Proof.
  intros Hc. unfold displayed, frame. simpl.
  now rewrite nth_error_map, Hc.
Qed.

Lemma frame_displayed_after (data : MetricsData) (k i : nat) :
  (200 <= k)%nat -> displayed (frame data k) i = displayed (frame data 200) i.
Proof.
  intros Hk. unfold displayed. destruct k as [| k]; [lia |].
  rewrite !frame_metricsData_S.
  now replace (Nat.min (S k) 200) with (Nat.min 200 200) by lia.
Qed.

Lemma progress_final : IZR (Z.of_nat 200) / IZR steps = 1.
Proof. change (Z.of_nat 200) with 200%Z. unfold steps. lra. Qed.

Lemma formatValue_final (i : nat) (n : Z) (s : string) :
  (0 <= n)%Z ->
  formatValue i (IZR n) 1 s
  = if Nat.eqb i 3
    then (if IZR n <? 999 then (IZR n, "") else (1, "K+"))
    else (IZR n, s).
Proof.
  intros Hn. destruct (Nat.eqb_spec i 3) as [-> | Hi].
  - rewrite formatValue_large, Rmult_1_r.
    destruct (IZR n <? 999); [| reflexivity].
    now rewrite Math_floor_integer.
  - destruct (Rle_dec (IZR n) 5) as [Hle | Hgt].
    + rewrite formatValue_small by assumption. rewrite Rmult_1_r. f_equal.
      apply le_IZR in Hle.
      assert (Hc : (n = 0 \/ n = 1 \/ n = 2 \/ 3 <= n)%Z) by lia.
      destruct Hc as [-> | [-> | [-> | H3]]].
      * rewrite lt_true by lra. reflexivity.
      * rewrite lt_false, lt_true by lra. reflexivity.
      * rewrite lt_false, lt_false, lt_true by lra. reflexivity.
      * apply IZR_le in H3.
        rewrite !lt_false by lra. apply Math_round_integer.
    + rewrite formatValue_standard by (try assumption; lra).
      now rewrite Rmult_1_r, Math_floor_integer.
Qed.

(** ** C1: the display after the last tick *)

(** C1, as amended.  After the 200th tick, whose eased progress is exactly
    1, a metric whose final value is a non-negative integer shows that value
    with the suffix of its definition at every position but the fourth
    (both under the standard rule, final value above 5, and under the
    small-target rule); the fourth metric shows its final value with the
    empty suffix while that value is below 999, and the frozen pair 1, K+
    otherwise. *)
Theorem final_tick_display (w : Window) (c0 : Component) (data : MetricsData)
    (i : nat) (cfg : MetricConfig.t) (n : Z) :
  mount w = Ok c0 ->
  sectionRef_current w = true ->
  nth_error (metrics data) i = Some cfg ->
  MetricConfig.value cfg = IZR n ->
  (0 <= n)%Z ->
  displayed (run c0 (session data 200)) i
  = Some (if Nat.eqb i 3
          then (if MetricConfig.value cfg <? 999
                then (MetricConfig.value cfg, "")
                else (1, "K+"))
          else (MetricConfig.value cfg, MetricConfig.suffix cfg)).
Proof.
  intros Hm Hs Hc Hv Hn.
  rewrite (session_frame w c0 data 200 Hm Hs).
  rewrite (frame_displayed data 200 i cfg Hc) by lia.
  rewrite progress_final, ease_at_1, Hv.
  now rewrite formatValue_final.
Qed.

Lemma final_tick_display_witness :
  displayed
    (run fresh
       (session catalogB 200)) 0
  = Some (42, "ms").
Proof.
  pose proof (final_tick_display browser _ catalogB 0 (metric_of "a" 42 "ms")
                42%Z eq_refl eq_refl eq_refl eq_refl ltac:(lia)) as H.
  exact H.
Defined.

(** The fourth metric of [catalogB], whose final value is 1500, ends on the
    pair 1, K+ and not on 1500: exact convergence fails for it. *)
Lemma fourth_metric_does_not_converge :
  displayed (run fresh (session catalogB 200)) 3 = Some (1, "K+")
  /\ ~ converges_exactly catalogB 3.
Proof.
  assert (E : displayed (run fresh (session catalogB 200)) 3
              = Some (1, "K+")).
  { rewrite (session_frame browser fresh catalogB 200 eq_refl eq_refl).
    rewrite (frame_displayed catalogB 200 3 (metric_of "d" 1500 "+") eq_refl)
      by lia.
    rewrite progress_final, ease_at_1, formatValue_large.
    rewrite lt_false by (simpl; lra). reflexivity. }
  split; [exact E |].
  intros H.
  specialize (H browser fresh (metric_of "d" 1500 "+") 1500%Z
                eq_refl eq_refl eq_refl eq_refl ltac:(lia)).
  rewrite E in H. simpl in H. injection H as H. lra.
Qed.

(** ** C2: the fourth metric *)

(** C2.  At every tick the metric at index 3 shows the floor of
    [targetValue * easedProgress] with the empty suffix while that product
    is below 999, and the pair 1, K+ otherwise, whatever suffix it had; at
    the last tick, where the eased progress is [easeOutExpoSlow 1], this is
    1, K+ from 999 on and the floor of the final value with the empty suffix
    below. *)
Theorem large_count_display (c : Component) (n : Z) (targetValue : number)
    (metric : Metric.t) :
  interval c = Running n ->
  mounted c = true ->
  nth_error (finalValues c) 3 = Some targetValue ->
  nth_error (metricsData c) 3 = Some metric ->
  let e := easeOutExpoSlow (IZR (n + 1) / IZR steps) in
  (targetValue * e < 999 ->
   displayed (step c Tick) 3 = Some (Math_floor (targetValue * e), ""))
  /\ (~ targetValue * e < 999 ->
      displayed (step c Tick) 3 = Some (1, "K+"))
  /\ ((n + 1)%Z = steps ->
      (999 <= targetValue * easeOutExpoSlow 1 ->
       displayed (step c Tick) 3 = Some (1, "K+"))
      /\ (targetValue * easeOutExpoSlow 1 < 999 ->
          displayed (step c Tick) 3 = Some (Math_floor targetValue, ""))).
Proof.
  intros Hi Hm Hf Hd e.
  rewrite (tick_displayed c n 3 targetValue metric Hi Hm Hf Hd).
  fold e. rewrite formatValue_large.
  split; [| split].
  - intros H. now rewrite lt_true.
  - intros H. rewrite lt_false; [reflexivity | lra].
  - intros Hn. assert (He : e = easeOutExpoSlow 1).
    { unfold e. rewrite Hn. f_equal. unfold steps. lra. }
    rewrite He, ease_at_1, Rmult_1_r. split; intros H.
    + now rewrite lt_false.
    + now rewrite lt_true.
Qed.

Lemma large_count_display_witness :
  displayed (step (frame catalogB 199) Tick) 3 = Some (1, "K+").
Proof.
  pose proof (large_count_display (frame catalogB 199) 199 1500 _
                eq_refl eq_refl eq_refl eq_refl) as H.
  destruct H as (_ & _ & H).
  destruct (H eq_refl) as [H1 _]. apply H1.
  rewrite ease_at_1. lra.
Defined.

(** ** C3: small final values *)

(** C3.  For a metric at an index other than 3 whose final value is at most
    5, every tick shows the raw value [targetValue * easedProgress] snapped:
    0 below 0.5, 1 from 0.5 to below 1.5, 2 from 1.5 to below 2.5, and
    [Math.round] of it from 2.5 on; the suffix stays.  A raw value of 1.4
    shows as 1. *)
Theorem small_target_display (c : Component) (n : Z) (i : nat)
    (targetValue : number) (metric : Metric.t) :
  interval c = Running n ->
  mounted c = true ->
  i <> 3%nat ->
  nth_error (finalValues c) i = Some targetValue ->
  nth_error (metricsData c) i = Some metric ->
  targetValue <= 5 ->
  let rawValue := targetValue * easeOutExpoSlow (IZR (n + 1) / IZR steps) in
  exists v : number,
    displayed (step c Tick) i = Some (v, Metric.suffix metric)
    /\ (rawValue < 0.5 -> v = 0)
    /\ (0.5 <= rawValue < 1.5 -> v = 1)
    /\ (1.5 <= rawValue < 2.5 -> v = 2)
    /\ (2.5 <= rawValue -> v = Math_round rawValue)
    /\ (rawValue = 1.4 -> v = 1).
Proof.
  intros Hi Hm Hne Hf Hd Ht rawValue.
  rewrite (tick_displayed c n i targetValue metric Hi Hm Hf Hd).
  rewrite formatValue_small by assumption. fold rawValue.
  eexists. split; [reflexivity |].
  unfold JS.lt.
  destruct (Rlt_dec rawValue 0.5), (Rlt_dec rawValue 1.5),
    (Rlt_dec rawValue 2.5); repeat split; intros; try reflexivity; lra.
Qed.

Lemma small_target_display_witness :
  exists v : number,
    displayed (step (frame catalogC 0) Tick) 0 = Some (v, "") /\ v = 1.
Proof.
  assert (He : 0.7 <= easeOutExpoSlow (IZR (0 + 1) / IZR steps)).
  { apply ease_lower. unfold steps. simpl. lra. }
  assert (Ht : 1.4 / easeOutExpoSlow (1 / IZR steps) <= 5).
  { change 1 with (IZR (0 + 1)) at 1.
    apply (Rmult_le_reg_r (easeOutExpoSlow (IZR (0 + 1) / IZR steps))); [lra |].
    unfold Rdiv at 1. rewrite Rmult_assoc, Rinv_l by lra. lra. }
  destruct (small_target_display (frame catalogC 0) 0 0
              (1.4 / easeOutExpoSlow (1 / IZR steps))
              (initialMetric (metric_of "s" (1.4 / easeOutExpoSlow (1 / IZR steps)) ""))
              eq_refl eq_refl ltac:(lia) eq_refl eq_refl Ht)
    as (v & Hv & _ & _ & _ & _ & H14).
  exists v. split; [exact Hv |].
  apply H14. change (IZR (0 + 1)) with 1.
  unfold Rdiv at 1. rewrite Rmult_assoc, Rinv_l by (change 1 with (IZR (0 + 1)) at 1; lra).
  lra.
Defined.

(** ** C4: no backwards snap *)

(** C4.  For a metric at an index other than 3 whose final value lies
    between 0 and 5, the value shown after [k + 1] ticks is never below the
    value shown after [k] ticks: the eased progress does not decrease from
    one tick to the next and the snapping is monotone in the raw value. *)
Theorem small_target_monotone (w : Window) (c0 : Component)
    (data : MetricsData) (i : nat) (cfg : MetricConfig.t) (k : nat) :
  mount w = Ok c0 ->
  sectionRef_current w = true ->
  nth_error (metrics data) i = Some cfg ->
  i <> 3%nat ->
  0 <= MetricConfig.value cfg <= 5 ->
  exists (v v' : number) (s s' : string),
    displayed (run c0 (session data k)) i = Some (v, s)
    /\ displayed (run c0 (session data (S k))) i = Some (v', s')
    /\ v <= v'.
Proof.
  intros Hm Hs Hc Hi [H0 H5].
  rewrite !(session_frame w c0 data _ Hm Hs).
  set (t := MetricConfig.value cfg) in *.
  assert (Hsnap : forall x, 0 <=
            (if x <? 0.5 then 0 else if x <? 1.5 then 1
             else if x <? 2.5 then 2 else Math_round x)).
  { intros x. unfold JS.lt.
    destruct (Rlt_dec x 0.5), (Rlt_dec x 1.5), (Rlt_dec x 2.5); try lra.
    apply (Math_round_lower 0). lra. }
  destruct (Nat.le_gt_cases 200 k) as [Hk | Hk].
  - (* the interval has been cleared: nothing changes any more *)
    rewrite (frame_displayed_after data (S k) i) by lia.
    rewrite (frame_displayed_after data k i) by lia.
    rewrite (frame_displayed data 200 i cfg Hc) by lia.
    rewrite formatValue_small by assumption.
    do 4 eexists. split; [reflexivity |]. split; [reflexivity |]. lra.
  - rewrite (frame_displayed data (S k) i cfg Hc) by lia.
    rewrite formatValue_small by assumption.
    destruct k as [| k].
    + rewrite (frame_displayed_0 data i cfg Hc).
      do 4 eexists. split; [reflexivity |]. split; [reflexivity |].
      apply Hsnap.
    + rewrite (frame_displayed data (S k) i cfg Hc) by lia.
      rewrite formatValue_small by assumption.
      do 4 eexists. split; [reflexivity |]. split; [reflexivity |].
      apply snap_monotone. fold t.
      apply Rmult_le_compat_l; [exact H0 |].
      apply ease_monotone; unfold steps.
      * apply Rmult_le_compat_r; [lra |]. apply IZR_le. lia.
      * apply (Rmult_le_reg_r 200); [lra |].
        unfold Rdiv. rewrite Rmult_assoc, Rinv_l by lra.
        rewrite Rmult_1_r, Rmult_1_l. apply IZR_le. lia.
Qed.

Lemma small_target_monotone_witness :
  exists (v v' : number) (s s' : string),
    displayed (run fresh (session catalogB 7)) 1 = Some (v, s)
    /\ displayed (run fresh (session catalogB 8)) 1 = Some (v', s')
    /\ v <= v'.
Proof.
  apply (small_target_monotone browser _ catalogB 1 (metric_of "b" 3 "x") 7
           eq_refl eq_refl eq_refl).
  - lia.
  - simpl. lra.
Defined.

(** ** C5: the easing function *)

(** C5.  [easeOutExpoSlow t] is [1 - 2^(-10 t) * 0.3] for every [t] in
    [0, 1) and exactly 1 at [t = 1], which the formula would not give; it is
    0.7 at 0, and it does not decrease along the tick boundaries [k / 200],
    [k = 1 .. 200]. *)
Theorem easeOutExpoSlow_spec :
  (forall t : R, 0 <= t < 1 ->
     easeOutExpoSlow t = 1 - Rpower 2 (-10 * t) * 0.3)
  /\ easeOutExpoSlow 1 = 1
  /\ 1 - Rpower 2 (-10 * 1) * 0.3 <> 1
  /\ easeOutExpoSlow 0 = 0.7
  /\ (forall k : Z, (1 <= k < 200)%Z ->
        easeOutExpoSlow (IZR k / IZR steps)
        <= easeOutExpoSlow (IZR (k + 1) / IZR steps)).
Proof.
  split; [| split; [| split; [| split]]].
  - intros t Ht. apply ease_formula. lra.
  - apply ease_at_1.
  - pose proof (pow2_pos (-10 * 1)) as H. unfold Math_pow in H. lra.
  - rewrite ease_formula by lra. unfold Math_pow.
    rewrite Rmult_0_r, Rpower_O by lra. lra.
  - intros k Hk. unfold steps. apply ease_monotone.
    + apply Rmult_le_compat_r; [lra |]. apply IZR_le. lia.
    + apply (Rmult_le_reg_r 200); [lra |].
      unfold Rdiv. rewrite Rmult_assoc, Rinv_l by lra.
      rewrite Rmult_1_r, Rmult_1_l. apply IZR_le. lia.
Qed.

Lemma easeOutExpoSlow_spec_witness :
  easeOutExpoSlow 0.5 = 1 - Rpower 2 (-10 * 0.5) * 0.3
  /\ easeOutExpoSlow (IZR 199 / IZR steps)
     <= easeOutExpoSlow (IZR (199 + 1) / IZR steps).
Proof.
  destruct easeOutExpoSlow_spec as (Hf & _ & _ & _ & Hm).
  split.
  - apply Hf. lra.
  - apply Hm. lia.
Defined.

(** ** The trigger and the interval along arbitrary traces *)

Lemma setHasAnimated_true_cases (c : Component) :
  setHasAnimated_true c = c
  \/ (hasAnimated c = false
      /\ mounted c = true
      /\ setHasAnimated_true c
         = mkComponent (metricsData c) (loading c) true (finalValues c) true
             (fetchPending c)
             (match observer c with NoObserver => NoObserver | _ => Disconnected end)
             (Running 0) (console c)).
Proof.
  destruct c as [md ld ha fv mo fp ob iv co].
  unfold setHasAnimated_true, disconnect, effectAnimation. simpl.
  destruct mo; [| now left]. destruct ha; [now left |]. right.
  destruct ob; simpl; repeat split; reflexivity.
Qed.

Lemma setHasAnimated_true_twice (c : Component) :
  setHasAnimated_true (setHasAnimated_true c) = setHasAnimated_true c.
Proof.
  destruct (setHasAnimated_true_cases c) as [H | (_ & _ & ->)].
  - now rewrite !H.
  - reflexivity.
Qed.

Lemma onIntersect_fold (entries : list IntersectionObserverEntry) :
  forall c,
    onIntersect entries c
    = if existsb isIntersecting entries then setHasAnimated_true c else c.
Proof.
  unfold onIntersect.
  induction entries as [| entry entries IH]; intros c; simpl; [reflexivity |].
  rewrite IH. destruct (isIntersecting entry); simpl.
  - destruct (existsb isIntersecting entries); [| reflexivity].
    apply setHasAnimated_true_twice.
  - reflexivity.
Qed.

Lemma step_transition (c : Component) (ev : Event) : transition c (step c ev) ev.
Proof.
  destruct ev as [res | err | entries | |]; simpl.
  - apply tr_same; destruct (fetchPending c) eqn:Hp; try reflexivity;
      destruct res as [data | err];
      destruct c as [md ld ha fv mo fp ob iv co];
      unfold onData, onError, setLoading, setMetricsData; simpl;
      destruct mo; reflexivity.
  - apply tr_same; destruct (fetchPending c) eqn:Hp; try reflexivity;
      destruct c as [md ld ha fv mo fp ob iv co];
      unfold onError, setLoading; simpl; destruct mo; reflexivity.
  - destruct (observer c) eqn:Ho; try (apply tr_same; reflexivity).
    rewrite onIntersect_fold.
    destruct (existsb isIntersecting entries) eqn:He;
      [| apply tr_same; reflexivity].
    destruct (setHasAnimated_true_cases c) as [-> | (Hh & Hm & ->)].
    + apply tr_same; reflexivity.
    + now apply (tr_fire _ _ _ entries).
  - destruct (interval c) as [| n | n] eqn:Hi; try (apply tr_same; reflexivity).
    apply (tr_tick _ _ _ n).
    + apply onTick_frame.
    + reflexivity.
    + exact Hi.
    + apply onTick_interval.
  - destruct (mounted c) eqn:Hm; [| apply tr_same; reflexivity].
    destruct c as [md ld ha fv mo fp ob iv co]. simpl in *.
    unfold unmount, clearInterval, disconnect. simpl.
    destruct iv as [| n | n].
    + apply tr_same; destruct ob; reflexivity.
    + apply (tr_unmount _ _ _ n); destruct ob; reflexivity.
    + apply tr_same; destruct ob; reflexivity.
Qed.

Lemma hasAnimated_step (c : Component) (ev : Event) :
  hasAnimated c = true -> hasAnimated (step c ev) = true.
Proof.
  intros H. destruct (step_transition c ev) as [E _ | n E _ _ _ | n E _ _ _ | ];
    congruence.
Qed.

Lemma interval_after_trigger_step (c : Component) (ev : Event) :
  interval_after_trigger c -> interval_after_trigger (step c ev).
Proof.
  unfold interval_after_trigger. intros H.
  destruct (step_transition c ev)
    as [E1 E2 | n E1 _ E2 E3 | n E1 _ E2 E3 | entries _ _ _ _ E1 E2].
  - rewrite E1, E2. exact H.
  - right. rewrite E1. destruct H as [H | H]; [congruence | exact H].
  - right. rewrite E1. destruct H as [H | H]; [congruence | exact H].
  - now right.
Qed.

Lemma interval_after_trigger_run (evs : list Event) :
  forall c, interval_after_trigger c -> interval_after_trigger (run c evs).
Proof.
  induction evs as [| ev evs IH]; intros c H; simpl; [exact H |].
  apply IH, interval_after_trigger_step, H.
Qed.

Lemma no_more_firing (evs : list Event) :
  forall c, hasAnimated c = true -> count_along fires c evs = 0%nat.
Proof.
  induction evs as [| ev evs IH]; intros c H; simpl; [reflexivity |].
  rewrite IH by (apply hasAnimated_step, H).
  unfold fires. now rewrite H.
Qed.

Lemma fires_at_most_once (evs : list Event) :
  forall c, (count_along fires c evs <= 1)%nat.
Proof.
  induction evs as [| ev evs IH]; intros c; simpl; [lia |].
  destruct (fires c (step c ev)) eqn:Hf.
  - unfold fires in Hf. apply andb_prop in Hf as [_ Hf].
    rewrite no_more_firing by exact Hf. lia.
  - apply IH.
Qed.

Lemma interval_stays (c : Component) (ev : Event) :
  interval c <> NoInterval -> interval (step c ev) <> NoInterval.
Proof.
  intros H.
  destruct (step_transition c ev)
    as [_ E | n _ _ _ E | n _ _ _ E | entries _ _ _ _ _ E]; rewrite E;
    try assumption; try discriminate.
  destruct (steps <=? n + 1)%Z; discriminate.
Qed.

Lemma no_more_starting (evs : list Event) :
  forall c, interval c <> NoInterval ->
            count_along starts_interval c evs = 0%nat.
Proof.
  induction evs as [| ev evs IH]; intros c H; simpl; [reflexivity |].
  rewrite IH by (apply interval_stays, H).
  unfold starts_interval. destruct (interval c); [contradiction | |]; reflexivity.
Qed.

Lemma starts_at_most_once (evs : list Event) :
  forall c, (count_along starts_interval c evs <= 1)%nat.
Proof.
  induction evs as [| ev evs IH]; intros c; simpl; [lia |].
  destruct (starts_interval c (step c ev)) eqn:Hs.
  - rewrite no_more_starting; [lia |].
    unfold starts_interval in Hs.
    destruct (interval c); try discriminate.
    destruct (interval (step c ev)); discriminate.
  - apply IH.
Qed.

(** ** The arrays read by a tick *)

Lemma arrays_agree_step (c : Component) (ev : Event) :
  arrays_agree c -> arrays_agree (step c ev).
Proof.
  intros H. pose proof H as [Hlen Hint].
  destruct ev as [res | err | entries | |].
  - destruct c as [md ld ha fv mo fp ob iv co]. simpl in *.
    destruct fp; [| exact H].
    destruct res as [data | err];
      unfold onData, onError, setLoading, setMetricsData, arrays_agree;
      destruct mo; simpl; split; intros; try congruence; auto.
    now rewrite !length_map.
  - destruct c as [md ld ha fv mo fp ob iv co]. simpl in *.
    destruct fp; [| exact H].
    unfold onError, setLoading, arrays_agree;
      destruct mo; simpl; split; intros; try congruence; auto.
  - simpl. destruct (observer c); try exact H.
    rewrite onIntersect_fold.
    destruct (existsb isIntersecting entries); [| exact H].
    destruct (setHasAnimated_true_cases c) as [-> | (_ & Hm & ->)];
      [exact H |].
    unfold arrays_agree. simpl. split; [auto | discriminate].
  - simpl. destruct (interval c) as [| n | n] eqn:Hi; try exact H.
    destruct (mounted c) eqn:Hm; [| now destruct (Hint eq_refl n)].
    destruct (onTick_frame c n) as (_ & _ & E2 & E3 & _).
    unfold arrays_agree.
    rewrite E2, E3, Hm, onTick_metricsData by exact Hm.
    rewrite length_mapi. split; [auto | discriminate].
  - destruct c as [md ld ha fv mo fp ob iv co]. simpl in *.
    destruct mo; [| exact H].
    unfold unmount, clearInterval, disconnect, arrays_agree.
    destruct ob, iv; simpl; split; intros; congruence.
Qed.

(** Along every trace after a mount the two arrays agree, so the lookup
    [finalValues.current[index]] of a tick finds a number for every metric
    it visits. *)
Lemma lengths_agree (w : Window) (c0 : Component) (evs : list Event) :
  mount w = Ok c0 -> arrays_agree (run c0 evs).
Proof.
  intros Hm. apply mount_Ok in Hm as [_ ->].
  assert (H0 : arrays_agree
                 (mkComponent [] true false [] true true
                    (if sectionRef_current w then Observing else Idle)
                    NoInterval [])) by (split; [reflexivity | discriminate]).
  revert H0. generalize (mkComponent [] true false [] true true
                           (if sectionRef_current w then Observing else Idle)
                           NoInterval []).
  induction evs as [| ev evs IH]; intros c Hc; simpl; [exact Hc |].
  apply IH, arrays_agree_step, Hc.
Qed.

Lemma lookup_in_range (w : Window) (c0 : Component) (evs : list Event)
    (n : Z) (i : nat) (metric : Metric.t) :
  mount w = Ok c0 ->
  interval (run c0 evs) = Running n ->
  nth_error (metricsData (run c0 evs)) i = Some metric ->
  exists targetValue, nth_error (finalValues (run c0 evs)) i = Some targetValue.
Proof.
  intros Hm Hi Hd. destruct (lengths_agree w c0 evs Hm) as [Hlen Hint].
  destruct (mounted (run c0 evs)) eqn:Hmo;
    [| now destruct (Hint eq_refl n)].
  assert (Hlt : (i < List.length (finalValues (run c0 evs)))%nat).
  { rewrite (Hlen eq_refl). apply nth_error_Some. congruence. }
  apply nth_error_Some in Hlt.
  destruct (nth_error (finalValues (run c0 evs)) i) as [t |]; [eauto | congruence].
Qed.

(** ** C6: one trigger, one animation *)

(** C6.  Along every sequence of callbacks after a mount: the flag
    [hasAnimated] goes from false to true at most once and an interval is
    created at most once; once the flag is true it stays true; an interval
    exists only when the flag is true; [currentStep] changes only by a tick
    that adds one while the flag is true, and it is never reset. *)
Theorem trigger_fires_once (w : Window) (c0 : Component) (evs : list Event) :
  mount w = Ok c0 ->
  let c := run c0 evs in
  (count_along fires c0 evs <= 1)%nat
  /\ (count_along starts_interval c0 evs <= 1)%nat
  /\ (forall ev, hasAnimated c = true -> hasAnimated (step c ev) = true)
  /\ (interval c <> NoInterval -> hasAnimated c = true)
  /\ (forall ev n n',
        currentStep c = Some n -> currentStep (step c ev) = Some n' ->
        n' <> n ->
        hasAnimated c = true /\ hasAnimated (step c ev) = true
        /\ ev = Tick /\ n' = (n + 1)%Z)
  /\ (forall ev n,
        currentStep c = Some n ->
        exists n', currentStep (step c ev) = Some n' /\ (n <= n')%Z).
Proof.
  intros Hm c.
  assert (Hinv : interval_after_trigger c).
  { apply interval_after_trigger_run. left.
    apply mount_Ok in Hm as [_ ->]. reflexivity. }
  assert (Hflag : forall n, currentStep c = Some n -> hasAnimated c = true).
  { intros n Hn. destruct Hinv as [Hi | Hh]; [| exact Hh].
    unfold currentStep in Hn. rewrite Hi in Hn. discriminate. }
  split; [apply fires_at_most_once |].
  split; [apply starts_at_most_once |].
  split; [intros ev; apply hasAnimated_step |].
  split.
  { intros Hi. destruct Hinv as [H | H]; [contradiction | exact H]. }
  split.
  - intros ev n n' Hn Hn' Hne. pose proof (Hflag n Hn) as Hh.
    unfold currentStep in Hn, Hn'.
    destruct (step_transition c ev)
      as [E1 E2 | m E1 Ev E2 E3 | m E1 Ev E2 E3 | entries _ _ _ E1 _ _].
    + rewrite E2 in Hn'. congruence.
    + rewrite E2 in Hn. injection Hn as <-. rewrite E3 in Hn'.
      repeat split; try congruence.
      destruct (steps <=? m + 1)%Z; congruence.
    + rewrite E2 in Hn. rewrite E3 in Hn'. congruence.
    + congruence.
  - intros ev n Hn. pose proof (Hflag n Hn) as Hh.
    unfold currentStep in *.
    destruct (step_transition c ev)
      as [E1 E2 | m E1 Ev E2 E3 | m E1 Ev E2 E3 | entries _ _ _ E1 _ _].
    + rewrite E2. exists n. split; [exact Hn | lia].
    + rewrite E2 in Hn. injection Hn as <-. rewrite E3.
      exists (m + 1)%Z. split; [| lia].
      destruct (steps <=? m + 1)%Z; reflexivity.
    + rewrite E2 in Hn. injection Hn as <-. rewrite E3.
      exists m. split; [reflexivity | lia].
    + congruence.
Qed.

Lemma trigger_fires_once_witness :
  (count_along fires
     fresh
     [visible; Tick; visible; Tick] <= 1)%nat.
Proof.
  exact (proj1 (trigger_fires_once browser _ [visible; Tick; visible; Tick]
                  eq_refl)).
Defined.

(** ** C7: the loop stops after 200 ticks *)

Lemma repeat_snoc {A : Type} (x : A) (n : nat) :
  repeat x (S n) = (repeat x n ++ [x])%list.
Proof. simpl. apply repeat_cons. Qed.

Lemma ticks_interval (c : Component) :
  interval c = Running 0 ->
  forall n : nat,
    interval (run c (repeat Tick n))
    = if (n <? 200)%nat then Running (Z.of_nat n) else Cleared 200.
Proof.
  intros H0. induction n as [| n IH].
  - exact H0.
  - rewrite repeat_snoc, run_snoc.
    destruct (Nat.ltb_spec n 200) as [Hlt | Hge].
    + rewrite (step_Tick _ _ IH), onTick_interval. unfold steps.
      destruct (Z.leb_spec 200 (Z.of_nat n + 1)) as [Hs | Hs];
        destruct (Nat.ltb_spec (S n) 200) as [Hs' | Hs']; try lia;
        f_equal; lia.
    + rewrite step_Tick_idle by (rewrite IH; discriminate).
      rewrite IH. destruct (Nat.ltb_spec (S n) 200); [lia | reflexivity].
Qed.

Lemma ticks_after_end (c : Component) :
  interval c = Running 0 ->
  forall n : nat,
    (200 <= n)%nat -> run c (repeat Tick n) = run c (repeat Tick 200).
Proof.
  intros H0 n Hn. induction Hn as [| n Hn IH]; [reflexivity |].
  rewrite repeat_snoc, run_snoc.
  rewrite step_Tick_idle; [exact IH |].
  rewrite (ticks_interval c H0 n).
  destruct (Nat.ltb_spec n 200); [lia | discriminate].
Qed.

(** C7.  The interval period is 3500 / 200 = 17.5 ms.  From the moment the
    interval is created, its callback runs at the first 200 ticks, and after
    [n] of them [currentStep] is [n]; the interval is cleared exactly from
    the 200th tick on, and whatever fires later changes nothing. *)
Theorem animation_terminates (c : Component) (n : nat) :
  interval c = Running 0 ->
  stepDuration = 17.5
  /\ interval (run c (repeat Tick n))
     = (if (n <? 200)%nat then Running (Z.of_nat n) else Cleared 200)
  /\ ((exists m, interval (run c (repeat Tick n)) = Cleared m)
      <-> (steps <= Z.of_nat n)%Z)
  /\ ((200 <= n)%nat -> run c (repeat Tick n) = run c (repeat Tick 200)).
Proof.
  intros H0.
  split; [unfold stepDuration, duration, steps; lra |].
  split; [apply ticks_interval, H0 |].
  split; [| apply ticks_after_end, H0].
  rewrite (ticks_interval c H0 n). unfold steps.
  destruct (Nat.ltb_spec n 200) as [Hlt | Hge]; split.
  - intros [m Hm]. discriminate.
  - lia.
  - lia.
  - intros _. now exists 200%Z.
Qed.

Lemma animation_terminates_witness :
  interval (run (frame catalogB 0) (repeat Tick 250)) = Cleared 200
  /\ run (frame catalogB 0) (repeat Tick 250)
     = run (frame catalogB 0) (repeat Tick 200).
Proof.
  destruct (animation_terminates (frame catalogB 0) 250 eq_refl)
    as (_ & Hi & _ & Hstop).
  split; [exact Hi |]. apply Hstop. lia.
Defined.

(** ** C8: a failed catalog load *)

(** What the callbacks of the observer, of the interval and the unmount
    leave alone. *)
Lemma step_not_fetch (c : Component) (ev : Event) :
  is_fetch_event ev = false ->
  loading (step c ev) = loading c
  /\ finalValues (step c ev) = finalValues c
  /\ fetchPending (step c ev) = fetchPending c
  /\ console (step c ev) = console c
  /\ (metricsData (step c ev) = metricsData c
      \/ exists e, metricsData (step c ev)
                   = mapi (animateMetric (finalValues c) e) (metricsData c))
  /\ (ev <> Unmount -> mounted (step c ev) = mounted c).
Proof.
  intros Hev. destruct ev as [res | err | entries | |]; try discriminate; simpl.
  - destruct (observer c); try solve [repeat split; auto].
    rewrite onIntersect_fold.
    destruct (existsb isIntersecting entries); [| repeat split; auto].
    destruct (setHasAnimated_true_cases c) as [-> | (_ & Hm & ->)]; simpl;
      repeat split; auto; congruence.
  - destruct (interval c) as [| n | n]; try solve [repeat split; auto].
    destruct (onTick_frame c n) as (E1 & _ & E2 & E3 & E4 & _ & E5).
    split; [exact E1 |]. split; [exact E2 |]. split; [exact E4 |].
    split; [exact E5 |]. split; [| intros _; exact E3].
    destruct (mounted c) eqn:Hm.
    + right. eexists. apply onTick_metricsData, Hm.
    + left. destruct c as [md ld ha fv mo fp ob iv co]. simpl in Hm. subst mo.
      unfold onTick, setMetricsData, clearInterval. simpl.
      destruct (steps <=? n + 1)%Z; reflexivity.
  - destruct c as [md ld ha fv mo fp ob iv co]. simpl.
    destruct mo; [| repeat split; auto; congruence].
    unfold unmount, clearInterval, disconnect.
    destruct ob, iv; simpl; repeat split; auto; congruence.
Qed.

Lemma awaiting_catalog_step (c : Component) (ev : Event) :
  scroll_or_tick ev = true -> awaiting_catalog c -> awaiting_catalog (step c ev).
Proof.
  intros Hev (Hd & Hf & Hp & Hm & Hl & Hc).
  assert (Hnf : is_fetch_event ev = false) by (destruct ev; easy).
  assert (Hnu : ev <> Unmount) by (destruct ev; easy).
  destruct (step_not_fetch c ev Hnf) as (E1 & E2 & E3 & E4 & E5 & E6).
  unfold awaiting_catalog. rewrite E1, E2, E3, E4, (E6 Hnu).
  repeat split; try assumption.
  destruct E5 as [-> | [e ->]]; [exact Hd | now rewrite Hd].
Qed.

Lemma awaiting_catalog_run (evs : list Event) :
  forall c, forallb scroll_or_tick evs = true ->
            awaiting_catalog c -> awaiting_catalog (run c evs).
Proof.
  induction evs as [| ev evs IH]; intros c Hevs Hc; simpl; [exact Hc |].
  simpl in Hevs. apply andb_prop in Hevs as [Hev Hevs].
  apply IH; [exact Hevs |]. now apply awaiting_catalog_step.
Qed.

Lemma load_fails (c : Component) (ev : Event) (err : string) :
  load_failure ev err -> awaiting_catalog c -> load_failed err (step c ev).
Proof.
  intros Hev (Hd & Hf & Hp & Hm & Hl & Hc).
  destruct c as [md ld ha fv mo fp ob iv co]. simpl in *. subst.
  destruct Hev; simpl; unfold load_failed; simpl; repeat split; reflexivity.
Qed.

Lemma load_failed_step (c : Component) (ev : Event) (err : string) :
  load_failed err c -> load_failed err (step c ev).
Proof.
  intros (Hd & Hf & Hp & Hl & Hc).
  destruct (is_fetch_event ev) eqn:Hev.
  - destruct ev as [res | e | | |]; try discriminate; simpl; rewrite Hp;
      repeat split; assumption.
  - destruct (step_not_fetch c ev Hev) as (E1 & E2 & E3 & E4 & E5 & _).
    unfold load_failed. rewrite E1, E2, E3, E4.
    repeat split; try assumption.
    destruct E5 as [-> | [e ->]]; [exact Hd | now rewrite Hd].
Qed.

Lemma load_failed_run (evs : list Event) (err : string) :
  forall c, load_failed err c -> load_failed err (run c evs).
Proof.
  induction evs as [| ev evs IH]; intros c Hc; simpl; [exact Hc |].
  apply IH, load_failed_step, Hc.
Qed.

Lemma forallb_firstn {A : Type} (p : A -> bool) (l : list A) :
  forall k, forallb p l = true -> forallb p (firstn k l) = true.
Proof.
  induction l as [| x l IH]; intros k H; destruct k; simpl in *; try reflexivity.
  apply andb_prop in H as [Hx Hl]. now rewrite Hx, IH.
Qed.

(** C8.  When the catalog fetch rejects, or its body does not parse, before
    any catalog was loaded: the [.catch] callback logs the error once and
    takes the loading flag down, every later callback runs without throwing,
    the component renders an empty list of metrics, and at no point of the
    trace, before or after the failure, is there any metric or final
    value. *)
Theorem load_failure_recovered (w : Window) (c0 : Component)
    (pre post : list Event) (failure : Event) (err : string) :
  mount w = Ok c0 ->
  forallb scroll_or_tick pre = true ->
  load_failure failure err ->
  let trace := (pre ++ failure :: post)%list in
  let c := run c0 trace in
  loading c = false
  /\ metricsData c = []
  /\ render c = MetricsView []
  /\ console c = [("Error loading metrics config:", err)]
  /\ (forall k : nat,
        metricsData (run c0 (firstn k trace)) = []
        /\ finalValues (run c0 (firstn k trace)) = []).
Proof.
  intros Hm Hpre Hfail trace c.
  assert (H0 : awaiting_catalog c0).
  { apply mount_Ok in Hm as [_ ->]. repeat split; reflexivity. }
  assert (Hc : load_failed err c).
  { unfold c, trace. rewrite run_app. simpl.
    apply load_failed_run, load_fails; [exact Hfail |].
    now apply awaiting_catalog_run. }
  destruct Hc as (Hd & Hf & Hp & Hl & Hlog).
  split; [exact Hl |]. split; [exact Hd |].
  split; [unfold render; now rewrite Hl, Hd |].
  split; [exact Hlog |].
  intros k. unfold trace. rewrite firstn_app, run_app.
  destruct (k - List.length pre)%nat as [| j] eqn:Hk.
  - simpl.
    destruct (awaiting_catalog_run (firstn k pre) c0) as (Hd' & Hf' & _);
      [now apply forallb_firstn | exact H0 |].
    now split.
  - rewrite firstn_all2 by lia. simpl.
    destruct (load_failed_run (firstn j post) err
                (step (run c0 pre) failure)) as (Hd' & Hf' & _).
    + apply load_fails; [exact Hfail |]. now apply awaiting_catalog_run.
    + now split.
Qed.

Lemma load_failure_recovered_witness :
  render (run fresh
            ([visible; Tick]
             ++ FetchRejected "TypeError: Failed to fetch" :: [Tick; Tick]))
  = MetricsView [].
Proof.
  destruct (load_failure_recovered browser _ [visible; Tick] [Tick; Tick]
              (FetchRejected "TypeError: Failed to fetch")
              "TypeError: Failed to fetch" eq_refl eq_refl
              (failure_rejected _)) as (_ & _ & H & _).
  exact H.
Defined.

(** ** C9: a page without [IntersectionObserver] *)

Lemma step_observer (c : Component) (ev : Event) :
  observer (step c ev) = observer c \/ observer (step c ev) = Disconnected.
Proof.
  destruct ev as [res | err | entries | |]; simpl.
  - destruct (fetchPending c); [| now left].
    destruct res; destruct c as [md ld ha fv mo fp ob iv co];
      unfold onData, onError, setLoading, setMetricsData; simpl;
      destruct mo; now left.
  - destruct (fetchPending c); [| now left].
    destruct c as [md ld ha fv mo fp ob iv co];
      unfold onError, setLoading; simpl; destruct mo; now left.
  - destruct (observer c) eqn:Ho; try now left.
    rewrite onIntersect_fold.
    destruct (existsb isIntersecting entries); [| now left].
    destruct (setHasAnimated_true_cases c) as [-> | (_ & _ & ->)]; simpl.
    + now left.
    + rewrite Ho. now right.
  - destruct (interval c) as [| n | n]; try now left.
    left. apply onTick_frame.
  - destruct c as [md ld ha fv mo fp ob iv co]. simpl.
    destruct mo; [| now left].
    unfold unmount, clearInterval, disconnect.
    destruct ob, iv; simpl; auto.
Qed.

Lemma never_observing (evs : list Event) :
  forall c, observer c <> Observing -> hasAnimated c = false ->
            hasAnimated (run c evs) = false.
Proof.
  induction evs as [| ev evs IH]; intros c Ho Hh; simpl; [exact Hh |].
  apply IH.
  - destruct (step_observer c ev) as [E | E]; rewrite E;
      [exact Ho | discriminate].
  - destruct (step_transition c ev)
      as [E _ | n E _ _ _ | n E _ _ _ | entries _ _ Hobs _ _ _];
      try congruence.
Qed.

Lemma fired_by_intersection (evs : list Event) :
  forall c,
    hasAnimated c = false -> hasAnimated (run c evs) = true ->
    exists entries,
      In (Intersection entries) evs /\ existsb isIntersecting entries = true.
Proof.
  induction evs as [| ev evs IH]; intros c Hc Hr; simpl in *; [congruence |].
  destruct (step_transition c ev)
    as [E _ | n E _ _ _ | n E _ _ _ | entries Ev He _ _ _ _].
  - destruct (IH (step c ev)) as (entries & Hin & He);
      [congruence | exact Hr | eauto].
  - destruct (IH (step c ev)) as (entries & Hin & He);
      [congruence | exact Hr | eauto].
  - destruct (IH (step c ev)) as (entries & Hin & He);
      [congruence | exact Hr | eauto].
  - exists entries. split; [left; exact Ev | exact He].
Qed.

(** C9, as amended.  On a page without [IntersectionObserver] the second
    effect throws a ReferenceError while the component mounts: there is no
    fallback, the trigger does not fire and no animation runs.  Where the
    observer exists, mounting fires nothing and creates no interval; the
    trigger can fire only if [sectionRef.current] was set and only by an
    observer callback that reports an intersecting entry. *)
Theorem missing_observer_throws (w : Window) :
  (IntersectionObserver_defined w = false ->
   mount w = Throw "ReferenceError: IntersectionObserver is not defined")
  /\ (forall c0 : Component,
        mount w = Ok c0 ->
        IntersectionObserver_defined w = true
        /\ hasAnimated c0 = false
        /\ interval c0 = NoInterval
        /\ (forall evs : list Event,
              hasAnimated (run c0 evs) = true ->
              sectionRef_current w = true
              /\ exists entries,
                   In (Intersection entries) evs
                   /\ existsb isIntersecting entries = true)).
Proof.
  split.
  - intros H. unfold mount, effectObserver. simpl. now rewrite H.
  - intros c0 Hm. apply mount_Ok in Hm as [Hdef ->].
    split; [exact Hdef |]. split; [reflexivity |]. split; [reflexivity |].
    intros evs Hr. split.
    + destruct (sectionRef_current w); [reflexivity |].
      rewrite never_observing in Hr; [discriminate | discriminate | reflexivity].
    + eapply fired_by_intersection; [| exact Hr]. reflexivity.
Qed.

Lemma missing_observer_throws_witness :
  mount legacy_browser
  = Throw "ReferenceError: IntersectionObserver is not defined".
Proof. exact (proj1 (missing_observer_throws legacy_browser) eq_refl). Defined.

(** On a page without [IntersectionObserver], mounting does not end with
    the trigger fired: it ends with a thrown error. *)
Lemma no_immediate_trigger :
  mount legacy_browser
  = Throw "ReferenceError: IntersectionObserver is not defined"
  /\ ~ fires_on_mount legacy_browser.
Proof.
  split; [reflexivity |]. intros [c [Hm _]]. discriminate Hm.
Qed.

(** ** C10: [displayAsK] is never read *)

Lemma initialMetric_forget (m : MetricConfig.t) :
  initialMetric (forget_displayAsK m) = initialMetric m.
Proof. reflexivity. Qed.

Lemma onData_forget (d1 d2 : MetricsData) (c : Component) :
  same_but_displayAsK d1 d2 -> onData d1 c = onData d2 c.
Proof.
  unfold same_but_displayAsK. intros H.
  assert (Hv : map MetricConfig.value (metrics d1)
               = map MetricConfig.value (metrics d2)).
  { apply (f_equal (map MetricConfig.value)) in H.
    rewrite !map_map in H. exact H. }
  assert (Hi : map initialMetric (metrics d1)
               = map initialMetric (metrics d2)).
  { apply (f_equal (map initialMetric)) in H.
    rewrite !map_map in H. exact H. }
  unfold onData. now rewrite Hv, Hi.
Qed.

(** C10.  Two catalogs that differ at most in the [displayAsK] fields of
    their metrics drive the component through the same states, whatever
    callbacks run before and after the catalog arrives: every metric shows
    the same value and suffix at every tick, and the same cards are
    rendered.  The fourth position alone selects the abbreviated display. *)
Theorem displayAsK_ignored (d1 d2 : MetricsData) (c : Component)
    (pre post : list Event) :
  same_but_displayAsK d1 d2 ->
  let c1 := run c (pre ++ FetchFulfilled (JsonBody d1) :: post) in
  let c2 := run c (pre ++ FetchFulfilled (JsonBody d2) :: post) in
  c1 = c2
  /\ (forall i, displayed c1 i = displayed c2 i)
  /\ render c1 = render c2.
Proof.
  intros H c1 c2.
  assert (E : c1 = c2).
  { unfold c1, c2. rewrite !run_app. simpl.
    destruct (fetchPending (run c pre)); [| reflexivity].
    now rewrite (onData_forget d1 d2 _ H). }
  rewrite E. repeat split; reflexivity.
Qed.

Lemma displayAsK_ignored_witness :
  run fresh
    ([] ++ FetchFulfilled (JsonBody catalogB) :: visible :: repeat Tick 200)
  = run fresh
      ([] ++ FetchFulfilled (JsonBody catalogB_K) :: visible :: repeat Tick 200).
Proof.
  exact (proj1 (displayAsK_ignored catalogB catalogB_K
                  fresh
                  [] (visible :: repeat Tick 200) eq_refl)).
Defined.

(** * Further properties of the component *)

(** ** What the animation passes on *)

Lemma animateMetric_static (fv : list number) (e : R) (m : Metric.t) (i : nat) :
  static (animateMetric fv e m i) = static m.
Proof.
  unfold animateMetric. destruct (nth_error fv i) as [t |]; [| reflexivity].
  destruct (formatValue i t e (Metric.suffix m)) as [v s]. reflexivity.
Qed.

Lemma static_mapi_from (fv : list number) (e : R) (l : list Metric.t) :
  forall start,
    map static (mapi_from (animateMetric fv e) start l) = map static l.
Proof.
  induction l as [| m l IH]; intros start; simpl; [reflexivity |].
  now rewrite animateMetric_static, IH.
Qed.

Lemma static_step (c : Component) (ev : Event) :
  (forall data, ev <> FetchFulfilled (JsonBody data)) ->
  map static (metricsData (step c ev)) = map static (metricsData c).
Proof.
  intros Hev. destruct (is_fetch_event ev) eqn:Hf.
  - destruct ev as [[data | err] | err | | |]; try discriminate.
    + now destruct (Hev data).
    + simpl. destruct c as [md ld ha fv mo fp ob iv co]. simpl.
      destruct fp; [| reflexivity].
      unfold onError, setLoading. simpl. destruct mo; reflexivity.
    + simpl. destruct c as [md ld ha fv mo fp ob iv co]. simpl.
      destruct fp; [| reflexivity].
      unfold onError, setLoading. simpl. destruct mo; reflexivity.
  - destruct (step_not_fetch c ev Hf) as (_ & _ & _ & _ & [-> | [e ->]] & _).
    + reflexivity.
    + apply static_mapi_from.
Qed.

(** X1.  Whatever callbacks run, short of a catalog arriving, the metrics
    keep their number, their order, and each its id, label, icon and
    colour: the animation touches the value and the suffix only. *)
Theorem identity_preserved (c : Component) (evs : list Event) :
  (forall data, ~ In (FetchFulfilled (JsonBody data)) evs) ->
  map static (metricsData (run c evs)) = map static (metricsData c).
Proof.
  revert c. induction evs as [| ev evs IH]; intros c Hevs; simpl;
    [reflexivity |].
  rewrite IH.
  - apply static_step. intros data ->. apply (Hevs data). now left.
  - intros data Hin. apply (Hevs data). now right.
Qed.

Lemma identity_preserved_witness :
  map static (metricsData (run (frame catalogB 0) (repeat Tick 3)))
  = map static (metricsData (frame catalogB 0)).
Proof.
  apply (identity_preserved (frame catalogB 0) (repeat Tick 3)).
  intros data [H | [H | [H | []]]]; discriminate H.
Defined.

(** ** After the interval and the observer are gone *)

Lemma quiescent_step (c : Component) (ev : Event) :
  quiescent c ->
  quiescent (step c ev)
  /\ metricsData (step c ev) = metricsData c
  /\ loading (step c ev) = loading c
  /\ hasAnimated (step c ev) = hasAnimated c
  /\ interval (step c ev) = interval c.
Proof.
  intros (Hi & Ho & Hf).
  destruct c as [md ld ha fv mo fp ob iv co]. simpl in *.
  destruct ev as [[data | err] | err | entries | |]; simpl.
  - destruct fp; [| repeat split; auto].
    destruct Hf as [Hf | Hf]; [discriminate |]. subst mo.
    unfold onData, setLoading, setMetricsData, quiescent. simpl.
    repeat split; auto.
  - destruct fp; [| repeat split; auto].
    destruct Hf as [Hf | Hf]; [discriminate |]. subst mo.
    unfold onError, setLoading, quiescent. simpl. repeat split; auto.
  - destruct fp; [| repeat split; auto].
    destruct Hf as [Hf | Hf]; [discriminate |]. subst mo.
    unfold onError, setLoading, quiescent. simpl. repeat split; auto.
  - destruct ob; try solve [repeat split; auto]. now destruct Ho.
  - destruct iv as [| n | n]; try solve [repeat split; auto].
    now destruct (Hi n).
  - destruct mo; [| repeat split; auto].
    unfold unmount, clearInterval, disconnect, quiescent.
    destruct iv as [| n | n]; [| now destruct (Hi n) |];
      destruct ob; simpl; repeat split; auto; discriminate.
Qed.

Lemma quiescent_run (evs : list Event) :
  forall c,
    quiescent c ->
    quiescent (run c evs)
    /\ metricsData (run c evs) = metricsData c
    /\ loading (run c evs) = loading c
    /\ hasAnimated (run c evs) = hasAnimated c
    /\ interval (run c evs) = interval c.
Proof.
  induction evs as [| ev evs IH]; intros c Hc; simpl;
    [split; [exact Hc | repeat split; reflexivity] |].
  destruct (quiescent_step c ev Hc) as (Hq & E1 & E2 & E3 & E4).
  destruct (IH _ Hq) as (Hq' & F1 & F2 & F3 & F4).
  split; [exact Hq' |]. repeat split; congruence.
Qed.

Lemma unmount_quiescent (c : Component) :
  mounted c = true ->
  quiescent (step c Unmount)
  /\ mounted (step c Unmount) = false
  /\ metricsData (step c Unmount) = metricsData c
  /\ loading (step c Unmount) = loading c
  /\ hasAnimated (step c Unmount) = hasAnimated c.
Proof.
  intros Hm. destruct c as [md ld ha fv mo fp ob iv co]. simpl in *. subst mo.
  unfold unmount, clearInterval, disconnect, quiescent.
  destruct ob, iv; simpl; repeat split; auto; discriminate.
Qed.

(** X2.  Unmounting tears the component down for good: the interval is not
    running and the observer observes nothing, and whatever callback still
    arrives (a tick, an observer report, the fetch settling late) changes
    neither the metrics, nor the loading flag, nor the trigger flag. *)
Theorem unmount_tears_down (c : Component) (evs : list Event) :
  mounted c = true ->
  let c' := run (step c Unmount) evs in
  mounted c' = false
  /\ (forall n, interval c' <> Running n)
  /\ observer c' <> Observing
  /\ metricsData c' = metricsData c
  /\ loading c' = loading c
  /\ hasAnimated c' = hasAnimated c.
Proof.
  intros Hm c'.
  destruct (unmount_quiescent c Hm) as (Hq & Hmo & E1 & E2 & E3).
  destruct (quiescent_run evs _ Hq) as ((Hi & Ho & Hf) & F1 & F2 & F3 & F4).
  fold c' in Hi, Ho, Hf, F1, F2, F3, F4.
  assert (Hmo' : mounted c' = false).
  { unfold c'. clear -Hmo. revert Hmo. generalize (step c Unmount).
    induction evs as [| ev evs IH]; intros d Hd; simpl; [exact Hd |].
    apply IH. destruct d as [md ld ha fv mo fp ob iv co]. simpl in *. subst mo.
    destruct ev as [[data | err] | err | entries | |]; simpl;
      try (destruct fp; reflexivity).
    - destruct ob; try reflexivity. rewrite onIntersect_fold.
      destruct (existsb isIntersecting entries); reflexivity.
    - destruct iv as [| n | n]; try reflexivity.
      unfold onTick, setMetricsData, clearInterval. simpl.
      destruct (steps <=? n + 1)%Z; reflexivity. }
  repeat split; try assumption; congruence.
Qed.

Lemma unmount_tears_down_witness :
  metricsData (run (step (frame catalogB 7) Unmount)
                 [Tick; visible; FetchRejected "late"; Tick])
  = metricsData (frame catalogB 7).
Proof.
  destruct (unmount_tears_down (frame catalogB 7)
              [Tick; visible; FetchRejected "late"; Tick] eq_refl)
    as (_ & _ & _ & H & _).
  exact H.
Defined.

(** ** The catalog arrives after the trigger *)

Lemma waiting_tick (j : nat) : step (waiting j) Tick = waiting (S j).
Proof.
  assert (Hi : interval (waiting j)
               = if (j <? 200)%nat then Running (Z.of_nat j) else Cleared 200)
    by reflexivity.
  destruct (Nat.ltb_spec j 200) as [Hlt | Hge].
  - rewrite (step_Tick _ _ Hi). apply Component_ext.
    + now rewrite onTick_metricsData.
    + rewrite onTick_interval. unfold waiting, interval, steps.
      destruct (Z.leb_spec 200 (Z.of_nat j + 1)) as [Hs | Hs];
        destruct (Nat.ltb_spec (S j) 200) as [Hs' | Hs']; try lia;
        f_equal; lia.
    + exact (onTick_frame (waiting j) (Z.of_nat j)).
  - rewrite step_Tick_idle by (rewrite Hi; discriminate).
    apply Component_ext; try (repeat split; reflexivity).
    rewrite Hi. unfold waiting, interval.
    destruct (Nat.ltb_spec (S j) 200); [lia | reflexivity].
Qed.

Lemma run_waiting (w : Window) (c0 : Component) (j : nat) :
  mount w = Ok c0 ->
  sectionRef_current w = true ->
  run c0 (visible :: repeat Tick j) = waiting j.
Proof.
  intros Hm Hs. apply mount_Ok in Hm as [_ ->]. rewrite Hs.
  induction j as [| j IH].
  - reflexivity.
  - rewrite repeat_snoc, app_comm_cons, run_snoc, IH. apply waiting_tick.
Qed.

Lemma frame_ticks (data : MetricsData) (k m : nat) :
  run (frame data k) (repeat Tick m) = frame data (k + m).
Proof.
  induction m as [| m IH].
  - now rewrite Nat.add_0_r.
  - rewrite repeat_snoc, run_snoc, IH, frame_tick. f_equal. lia.
Qed.

Lemma arrival_then_tick (data : MetricsData) (j : nat) :
  (j < 200)%nat ->
  step (step (waiting j) (FetchFulfilled (JsonBody data))) Tick
  = frame data (S j).
Proof.
  intros Hj.
  assert (Hi : interval (step (waiting j) (FetchFulfilled (JsonBody data)))
               = Running (Z.of_nat j)).
  { unfold waiting. simpl. now rewrite (proj2 (Nat.ltb_lt j 200) Hj). }
  rewrite (step_Tick _ _ Hi). apply Component_ext.
  - rewrite onTick_metricsData by reflexivity. rewrite frame_metricsData_S.
    replace (Z.of_nat (Nat.min (S j) 200)) with (Z.of_nat j + 1)%Z by lia.
    reflexivity.
  - rewrite onTick_interval, frame_interval. unfold steps.
    destruct (Z.leb_spec 200 (Z.of_nat j + 1)) as [Hs | Hs];
      destruct (Nat.ltb_spec (S j) 200) as [Hs' | Hs']; try lia;
      f_equal; lia.
  - exact (onTick_frame _ (Z.of_nat j)).
Qed.

(** X3.  If the section scrolls into view before the catalog has arrived
    and the catalog arrives while the interval is still running, the
    animation catches up at the next tick: from then on the component is in
    exactly the state it would be in had the catalog arrived first, so what
    is shown depends on the number of ticks only. *)
Theorem catalog_during_animation (w : Window) (c0 : Component)
    (data : MetricsData) (j m : nat) :
  mount w = Ok c0 ->
  sectionRef_current w = true ->
  (j < 200)%nat ->
  run c0 (late_catalog data j (repeat Tick (S m)))
  = run c0 (session data (j + S m)).
Proof.
  intros Hm Hs Hj.
  rewrite (session_frame w c0 data _ Hm Hs).
  unfold late_catalog. rewrite app_comm_cons, run_app.
  rewrite (run_waiting w c0 j Hm Hs).
  change (run (waiting j) (FetchFulfilled (JsonBody data) :: repeat Tick (S m)))
    with (run (step (step (waiting j) (FetchFulfilled (JsonBody data))) Tick)
            (repeat Tick m)).
  rewrite (arrival_then_tick data j Hj), frame_ticks. f_equal. lia.
Qed.

Lemma catalog_during_animation_witness :
  run fresh (late_catalog catalogB 150 (repeat Tick 50))
  = run fresh (session catalogB 200).
Proof.
  apply (catalog_during_animation browser fresh catalogB 150 49
           eq_refl eq_refl).
  lia.
Defined.

(** X4.  If the catalog arrives only after the interval has run its 200
    ticks, nothing animates it any more: whatever happens afterwards, every
    metric keeps showing 0 with the suffix of its definition, although the
    trigger flag is set. *)
Theorem late_catalog_never_animates (w : Window) (c0 : Component)
    (data : MetricsData) (j : nat) (post : list Event) :
  mount w = Ok c0 ->
  sectionRef_current w = true ->
  (200 <= j)%nat ->
  let c := run c0 (late_catalog data j post) in
  hasAnimated c = true
  /\ loading c = false
  /\ metricsData c = map initialMetric (metrics data)
  /\ (forall i cfg,
        nth_error (metrics data) i = Some cfg ->
        displayed c i = Some (0, MetricConfig.suffix cfg)).
Proof.
  intros Hm Hs Hj c.
  assert (Hc : c = run (step (waiting j) (FetchFulfilled (JsonBody data))) post).
  { unfold c, late_catalog. rewrite app_comm_cons, run_app.
    now rewrite (run_waiting w c0 j Hm Hs). }
  assert (Hq : quiescent (step (waiting j) (FetchFulfilled (JsonBody data)))).
  { unfold waiting, quiescent. simpl.
    replace (j <? 200)%nat with false by (symmetry; apply Nat.ltb_ge; lia).
    repeat split; try discriminate. now left. }
  destruct (quiescent_run post _ Hq) as (_ & E1 & E2 & E3 & _).
  rewrite <- Hc in E1, E2, E3.
  split; [rewrite E3; reflexivity |].
  split; [rewrite E2; reflexivity |].
  assert (Hd : metricsData c = map initialMetric (metrics data))
    by (rewrite E1; reflexivity).
  split; [exact Hd |].
  intros i cfg Hi. unfold displayed. now rewrite Hd, nth_error_map, Hi.
Qed.

Lemma late_catalog_never_animates_witness :
  displayed (run fresh (late_catalog catalogB 200 (repeat Tick 5))) 0
  = Some (0, "ms").
Proof.
  destruct (late_catalog_never_animates browser fresh catalogB 200
              (repeat Tick 5) eq_refl eq_refl ltac:(lia)) as (_ & _ & _ & H).
  exact (H 0%nat (metric_of "a" 42 "ms") eq_refl).
Defined.

(** ** The easing curve *)


Lemma ease_lt_1 (t : R) : t <> 1 -> easeOutExpoSlow t < 1.
Proof.
  intros H. rewrite (ease_formula t H). pose proof (pow2_pos (-10 * t)). lra.
Qed.




(** ** What a tick can show *)

Lemma progress_bounds (n : Z) :
  (0 <= n)%Z -> 0 <= IZR (n + 1) / IZR steps.
Proof.
  intros Hn. unfold steps. apply Rmult_le_pos; [| lra].
  apply IZR_le. lia.
Qed.

Lemma progress_not_final (n : Z) :
  (n + 1 <> steps)%Z -> IZR (n + 1) / IZR steps <> 1.
Proof.
  unfold steps. intros Hn H. apply Hn. apply eq_IZR.
  apply (Rmult_eq_compat_r 200) in H. unfold Rdiv in H.
  rewrite Rmult_assoc, Rinv_l, Rmult_1_r, Rmult_1_l in H by lra. exact H.
Qed.

Lemma formatValue_integer (i : nat) (t e : R) (s : string) :
  exists z : Z, fst (formatValue i t e s) = IZR z.
Proof.
  unfold formatValue.
  destruct (Nat.eqb i 3).
  - destruct (t * e <? 999); [eexists; reflexivity | now exists 1%Z].
  - destruct (t <=? 5); [| eexists; reflexivity].
    destruct (t * e <? 0.5); [now exists 0%Z |].
    destruct (t * e <? 1.5); [now exists 1%Z |].
    destruct (t * e <? 2.5); [now exists 2%Z | eexists; reflexivity].
Qed.

Lemma formatValue_nonneg (i : nat) (t e : R) (s : string) :
  0 <= t -> 0 <= e -> 0 <= fst (formatValue i t e s).
Proof.
  intros Ht He. assert (Hr : 0 <= t * e) by now apply Rmult_le_pos.
  assert (Hfl : forall x, 0 <= x -> 0 <= Math_floor x).
  { intros x Hx. unfold Math_floor. apply IZR_le, Zfloor_lub. exact Hx. }
  unfold formatValue, JS.lt, JS.le.
  destruct (Nat.eqb i 3).
  - destruct (Rlt_dec (t * e) 999); simpl; [now apply Hfl | lra].
  - destruct (Rle_dec t 5); simpl; [| now apply Hfl].
    destruct (Rlt_dec (t * e) 0.5); simpl; [lra |].
    destruct (Rlt_dec (t * e) 1.5); simpl; [lra |].
    destruct (Rlt_dec (t * e) 2.5); simpl; [lra |].
    apply (Math_round_lower 0). lra.
Qed.

(** X6.  Whatever the final value, the position and the tick, a tick leaves
    an integer as the displayed value, and a non-negative one when the
    final value is not negative. *)
Theorem display_is_integer (c : Component) (n : Z) (i : nat)
    (targetValue : number) (metric : Metric.t) :
  interval c = Running n ->
  mounted c = true ->
  nth_error (finalValues c) i = Some targetValue ->
  nth_error (metricsData c) i = Some metric ->
  exists (z : Z) (s : string),
    displayed (step c Tick) i = Some (IZR z, s)
    /\ (0 <= targetValue -> (0 <= n)%Z -> (0 <= z)%Z).
Proof.
  intros Hi Hm Hf Hd.
  rewrite (tick_displayed c n i targetValue metric Hi Hm Hf Hd).
  set (e := easeOutExpoSlow (IZR (n + 1) / IZR steps)).
  destruct (formatValue_integer i targetValue e (Metric.suffix metric))
    as [z Hz].
  pose proof (formatValue_nonneg i targetValue e (Metric.suffix metric)) as Hn.
  destruct (formatValue i targetValue e (Metric.suffix metric)) as [v s].
  simpl in Hz, Hn. subst v. exists z, s. split; [reflexivity |].
  intros Ht Hn0. apply le_IZR. apply Hn; [exact Ht |].
  pose proof (ease_lower _ (progress_bounds n Hn0)). fold e in H. lra.
Qed.

Lemma display_is_integer_witness :
  exists (z : Z) (s : string),
    displayed (step (frame catalogB 10) Tick) 2 = Some (IZR z, s).
Proof.
  destruct (display_is_integer (frame catalogB 10) 10 2 99
              (animateMetric (map MetricConfig.value (metrics catalogB))
                 (easeOutExpoSlow (IZR (Z.of_nat (Nat.min 10 200)) / IZR steps))
                 (initialMetric (metric_of "c" 99 "%")) 2)
              eq_refl eq_refl eq_refl eq_refl) as (z & s & H & _).
  now exists z, s.
Defined.

(** X7.  A metric under the standard rule (index other than 3, final value
    above 5) never shows more than its final value and never less than the
    floor of 70% of it, from the first tick on; before the last tick it
    shows strictly less than the final value; the suffix is untouched. *)
Theorem standard_display_bounds (c : Component) (n : Z) (i : nat)
    (targetValue : number) (metric : Metric.t) :
  interval c = Running n ->
  (0 <= n)%Z ->
  mounted c = true ->
  i <> 3%nat ->
  nth_error (finalValues c) i = Some targetValue ->
  nth_error (metricsData c) i = Some metric ->
  5 < targetValue ->
  exists v : number,
    displayed (step c Tick) i = Some (v, Metric.suffix metric)
    /\ Math_floor (0.7 * targetValue) <= v <= targetValue
    /\ ((n + 1 <> steps)%Z -> v < targetValue).
Proof.
  intros Hi Hn Hm Hne Hf Hd Ht.
  rewrite (tick_displayed c n i targetValue metric Hi Hm Hf Hd).
  rewrite formatValue_standard by assumption.
  set (e := easeOutExpoSlow (IZR (n + 1) / IZR steps)).
  assert (He : 0.7 <= e <= 1).
  { split; [apply ease_lower, progress_bounds, Hn | apply ease_le_1]. }
  eexists. split; [reflexivity |].
  assert (Hfl : Math_floor (targetValue * e) <= targetValue * e)
    by (unfold Math_floor; apply Zfloor_bound).
  split; [split |].
  - apply Math_floor_le. nra.
  - nra.
  - intros Hlast.
    assert (e < 1) by (apply ease_lt_1, progress_not_final, Hlast).
    nra.
Qed.

Lemma standard_display_bounds_witness :
  exists v : number,
    displayed (step (frame catalogB 0) Tick) 0 = Some (v, "ms")
    /\ Math_floor (0.7 * 42) <= v <= 42.
Proof.
  destruct (standard_display_bounds (frame catalogB 0) 0 0 42
              (initialMetric (metric_of "a" 42 "ms"))
              eq_refl ltac:(lia) eq_refl ltac:(lia) eq_refl eq_refl
              ltac:(lra)) as (v & Hv & Hb & _).
  exists v. split; [exact Hv | exact Hb].
Defined.

(** X8.  Under the small-target rule the three thresholds add nothing to
    [Math.round]: whenever the raw value is at least -0.5, the value shown
    is [Math.round] of the raw value.  Only below -0.5 do they differ: the
    rule shows 0 where [Math.round] would be negative. *)
Theorem small_rule_is_rounding (i : nat) (targetValue easedProgress : number)
    (suffix : string) :
  i <> 3%nat ->
  targetValue <= 5 ->
  let rawValue := targetValue * easedProgress in
  (-0.5 <= rawValue ->
   formatValue i targetValue easedProgress suffix
   = (Math_round rawValue, suffix))
  /\ (rawValue < -0.5 ->
      formatValue i targetValue easedProgress suffix = (0, suffix)
      /\ Math_round rawValue < 0).
Proof.
  intros Hi Ht rawValue. rewrite formatValue_small by assumption.
  fold rawValue. unfold JS.lt. split; intros Hr.
  - assert (Hu : forall z, IZR z - 0.5 <= rawValue < IZR z + 0.5 ->
                           (IZR z, suffix) = (Math_round rawValue, suffix)).
    { intros z Hz. unfold Math_round.
      rewrite (Zfloor_eq z (rawValue + 0.5)) by lra. reflexivity. }
    destruct (Rlt_dec rawValue 0.5); [apply (Hu 0%Z); lra |].
    destruct (Rlt_dec rawValue 1.5); [apply (Hu 1%Z); lra |].
    destruct (Rlt_dec rawValue 2.5); [apply (Hu 2%Z); lra | reflexivity].
  - split.
    + destruct (Rlt_dec rawValue 0.5); [reflexivity | lra].
    + unfold Math_round. pose proof (Zfloor_bound (rawValue + 0.5)). lra.
Qed.

Lemma small_rule_is_rounding_witness :
  formatValue 0 3 0.5 "x" = (Math_round (3 * 0.5), "x").
Proof.
  apply (small_rule_is_rounding 0 3 0.5 "x"); [lia | lra | lra].
Defined.

(** X9.  The metric at index 3 never shows a value above 998 and never
    shows the suffix of its definition: after any tick its suffix is empty
    or K+, and it is K+ exactly when the value is the frozen 1 of a raw
    value that has reached 999. *)
Theorem large_count_range (c : Component) (n : Z) (targetValue : number)
    (metric : Metric.t) :
  interval c = Running n ->
  mounted c = true ->
  nth_error (finalValues c) 3 = Some targetValue ->
  nth_error (metricsData c) 3 = Some metric ->
  let rawValue := targetValue * easeOutExpoSlow (IZR (n + 1) / IZR steps) in
  exists (v : number) (s : string),
    displayed (step c Tick) 3 = Some (v, s)
    /\ v <= 998
    /\ ((s = "" /\ rawValue < 999) \/ (s = "K+" /\ v = 1 /\ 999 <= rawValue)).
Proof.
  intros Hi Hm Hf Hd rawValue.
  rewrite (tick_displayed c n 3 targetValue metric Hi Hm Hf Hd).
  rewrite formatValue_large. fold rawValue. unfold JS.lt.
  destruct (Rlt_dec rawValue 999) as [Hlt | Hge].
  - do 2 eexists. split; [reflexivity |]. split; [| now left].
    unfold Math_floor. change 998 with (IZR 998). apply IZR_le.
    assert (Zfloor rawValue < 999)%Z; [| lia].
    apply lt_IZR. pose proof (Zfloor_bound rawValue). lra.
  - do 2 eexists. split; [reflexivity |]. split; [lra |]. right.
    repeat split; lra.
Qed.

Lemma large_count_range_witness :
  exists (v : number) (s : string),
    displayed (step (frame catalogB 0) Tick) 3 = Some (v, s) /\ v <= 998.
Proof.
  destruct (large_count_range (frame catalogB 0) 0 1500
              (initialMetric (metric_of "d" 1500 "+"))
              eq_refl eq_refl eq_refl eq_refl) as (v & s & H & Hv & _).
  exists v, s. split; [exact H | exact Hv].
Defined.

(** ** Final values that are not integers *)

Lemma floor_fixed_iff (x : R) : Math_floor x = x <-> exists z : Z, x = IZR z.
Proof.
  split.
  - intros H. exists (Zfloor x). symmetry. exact H.
  - intros [z ->]. apply Math_floor_integer.
Qed.

Lemma round_fixed_iff (x : R) : Math_round x = x <-> exists z : Z, x = IZR z.
Proof.
  split.
  - intros H. exists (Zfloor (x + 0.5)). symmetry. exact H.
  - intros [z ->]. apply Math_round_integer.
Qed.

(** X10.  For a metric at an index other than 3 and any non-negative final
    value, integer or not, the last tick leaves the floor of the final
    value when it is above 5 and the final value rounded to the nearest
    integer when it is at most 5, with the suffix of the definition.  So the
    display ends exactly on the final value if and only if that value is an
    integer, and a small final value such as 4.6 ends above it. *)
Theorem final_display_any_target (w : Window) (c0 : Component)
    (data : MetricsData) (i : nat) (cfg : MetricConfig.t) :
  mount w = Ok c0 ->
  sectionRef_current w = true ->
  nth_error (metrics data) i = Some cfg ->
  i <> 3%nat ->
  0 <= MetricConfig.value cfg ->
  exists v : number,
    displayed (run c0 (session data 200)) i
    = Some (v, MetricConfig.suffix cfg)
    /\ (5 < MetricConfig.value cfg -> v = Math_floor (MetricConfig.value cfg))
    /\ (MetricConfig.value cfg <= 5 ->
        v = Math_round (MetricConfig.value cfg))
    /\ (v = MetricConfig.value cfg
        <-> exists z : Z, MetricConfig.value cfg = IZR z).
Proof.
  intros Hm Hs Hc Hi Ht.
  rewrite (session_frame w c0 data 200 Hm Hs).
  rewrite (frame_displayed data 200 i cfg Hc) by lia.
  rewrite progress_final, ease_at_1.
  set (t := MetricConfig.value cfg) in *.
  destruct (Rle_dec t 5) as [Hle | Hgt].
  - destruct (small_rule_is_rounding i t 1 (MetricConfig.suffix cfg) Hi Hle)
      as [Hr _].
    rewrite Hr by lra. rewrite Rmult_1_r.
    eexists. split; [reflexivity |].
    split; [intros; lra |]. split; [reflexivity | apply round_fixed_iff].
  - rewrite formatValue_standard by (try assumption; lra).
    rewrite Rmult_1_r.
    eexists. split; [reflexivity |].
    split; [reflexivity |]. split; [intros; lra | apply floor_fixed_iff].
Qed.

Lemma final_display_any_target_witness :
  exists v : number,
    displayed (run fresh (session catalogB 200)) 2 = Some (v, "%")
    /\ (5 < 99 -> v = Math_floor 99).
Proof.
  destruct (final_display_any_target browser fresh catalogB 2
              (metric_of "c" 99 "%") eq_refl eq_refl eq_refl ltac:(lia)
              ltac:(simpl; lra)) as (v & Hv & Hf & _).
  exists v. split; [exact Hv | exact Hf].
Defined.

(** ** Monotone and non-monotone displays *)

Lemma progress_le (k : nat) :
  (S k <= 200)%nat ->
  IZR (Z.of_nat k) / IZR steps <= IZR (Z.of_nat (S k)) / IZR steps
  /\ IZR (Z.of_nat (S k)) / IZR steps <= 1.
Proof.
  intros Hk. unfold steps. split.
  - apply Rmult_le_compat_r; [lra |]. apply IZR_le. lia.
  - apply (Rmult_le_reg_r 200); [lra |].
    unfold Rdiv. rewrite Rmult_assoc, Rinv_l by lra.
    rewrite Rmult_1_r, Rmult_1_l. apply IZR_le. lia.
Qed.

(** X11.  A metric under the standard rule (index other than 3, final value
    above 5) never steps back either: after [k + 1] ticks it shows at
    least what it showed after [k] ticks, for every [k], with 0 shown
    before the first tick. *)
Theorem standard_monotone (w : Window) (c0 : Component)
    (data : MetricsData) (i : nat) (cfg : MetricConfig.t) (k : nat) :
  mount w = Ok c0 ->
  sectionRef_current w = true ->
  nth_error (metrics data) i = Some cfg ->
  i <> 3%nat ->
  5 < MetricConfig.value cfg ->
  exists v v' : number,
    displayed (run c0 (session data k)) i
    = Some (v, MetricConfig.suffix cfg)
    /\ displayed (run c0 (session data (S k))) i
       = Some (v', MetricConfig.suffix cfg)
    /\ v <= v'.
Proof.
  intros Hm Hs Hc Hi Ht.
  rewrite !(session_frame w c0 data _ Hm Hs).
  set (t := MetricConfig.value cfg) in *.
  destruct (Nat.le_gt_cases 200 k) as [Hk | Hk].
  - rewrite (frame_displayed_after data (S k) i) by lia.
    rewrite (frame_displayed_after data k i) by lia.
    rewrite (frame_displayed data 200 i cfg Hc) by lia.
    rewrite formatValue_standard by assumption.
    do 2 eexists. split; [reflexivity |]. split; [reflexivity |]. lra.
  - rewrite (frame_displayed data (S k) i cfg Hc) by lia.
    rewrite formatValue_standard by assumption. fold t.
    destruct k as [| k].
    + rewrite (frame_displayed_0 data i cfg Hc).
      do 2 eexists. split; [reflexivity |]. split; [reflexivity |].
      unfold Math_floor. apply IZR_le, Zfloor_lub.
      pose proof (ease_lower (IZR (Z.of_nat 1) / IZR steps)) as He.
      assert (0 <= IZR (Z.of_nat 1) / IZR steps)
        by (unfold steps; simpl; lra).
      specialize (He H). nra.
    + rewrite (frame_displayed data (S k) i cfg Hc) by lia.
      rewrite formatValue_standard by assumption. fold t.
      do 2 eexists. split; [reflexivity |]. split; [reflexivity |].
      apply Math_floor_le. apply Rmult_le_compat_l; [lra |].
      destruct (progress_le (S k)) as [H1 H2]; [lia |].
      now apply ease_monotone.
Qed.

Lemma standard_monotone_witness :
  exists v v' : number,
    displayed (run fresh (session catalogB 120)) 0 = Some (v, "ms")
    /\ displayed (run fresh (session catalogB 121)) 0 = Some (v', "ms")
    /\ v <= v'.
Proof.
  apply (standard_monotone browser fresh catalogB 0 (metric_of "a" 42 "ms") 120
           eq_refl eq_refl eq_refl).
  - lia.
  - simpl. lra.
Defined.

Lemma pow2_minus_1 : Math_pow 2 (-1) = 0.5.
Proof.
  unfold Math_pow. replace (-1) with (- (1)) by lra.
  rewrite Rpower_Ropp, Rpower_1 by lra. lra.
Qed.

Lemma ease_early (k : nat) :
  (1 <= k <= 20)%nat ->
  0.7 <= easeOutExpoSlow (IZR (Z.of_nat k) / IZR steps) <= 0.85.
Proof.
  intros Hk. unfold steps.
  assert (H1 : 1 <= IZR (Z.of_nat k) <= 20).
  { split; apply IZR_le; lia. }
  set (t := IZR (Z.of_nat k) / 200).
  assert (Ht : 0 <= t <= 0.1) by (unfold t; lra).
  split; [apply ease_lower; lra |].
  rewrite ease_formula by lra.
  assert (Math_pow 2 (-1) <= Math_pow 2 (-10 * t)) by (apply pow2_le; lra).
  rewrite pow2_minus_1 in H. lra.
Qed.

(** X12.  The metric at index 3 does step back.  With a final value from
    999 to 1175, each of the first 20 ticks shows a plain number between
    699 and 998 with the empty suffix, and the last tick shows 1 with K+:
    the displayed value falls from the hundreds to 1. *)
Theorem large_count_drops (w : Window) (c0 : Component) (data : MetricsData)
    (cfg : MetricConfig.t) (k : nat) :
  mount w = Ok c0 ->
  sectionRef_current w = true ->
  nth_error (metrics data) 3 = Some cfg ->
  999 <= MetricConfig.value cfg <= 1175 ->
  (1 <= k <= 20)%nat ->
  exists v : number,
    displayed (run c0 (session data k)) 3 = Some (v, "")
    /\ 699 <= v <= 998
    /\ displayed (run c0 (session data 200)) 3 = Some (1, "K+").
Proof.
  intros Hm Hs Hc Ht Hk.
  rewrite !(session_frame w c0 data _ Hm Hs).
  rewrite (frame_displayed data k 3 cfg Hc) by lia.
  rewrite (frame_displayed data 200 3 cfg Hc) by lia.
  rewrite progress_final, ease_at_1, !formatValue_large, Rmult_1_r.
  set (t := MetricConfig.value cfg) in *.
  pose proof (ease_early k Hk) as He.
  set (e := easeOutExpoSlow (IZR (Z.of_nat k) / IZR steps)) in *.
  assert (Hraw : 699 <= t * e < 999) by nra.
  rewrite (lt_true (t * e) 999) by lra.
  rewrite (lt_false t 999) by lra.
  eexists. split; [reflexivity |]. split; [| reflexivity].
  pose proof (Zfloor_bound (t * e)) as Hb. unfold Math_floor. split.
  - change 699 with (IZR 699). apply IZR_le, Zfloor_lub. simpl. lra.
  - change 998 with (IZR 998). apply IZR_le.
    assert (Zfloor (t * e) < 999)%Z; [| lia]. apply lt_IZR. lra.
Qed.

Lemma large_count_drops_witness :
  exists v : number,
    displayed (run fresh (session catalogD 5)) 3 = Some (v, "")
    /\ 699 <= v <= 998
    /\ displayed (run fresh (session catalogD 200)) 3 = Some (1, "K+").
Proof.
  apply (large_count_drops browser fresh catalogD (metric_of "d" 1100 "+") 5
           eq_refl eq_refl eq_refl).
  - simpl. lra.
  - lia.
Defined.

(** ** The observer callback *)

(** X13.  While the observer is attached and the trigger has not fired, a
    report with no intersecting entry changes nothing.  A report with an
    intersecting entry, however many, sets the flag, disconnects the
    observer and creates the interval at step 0 without touching the
    metrics or the loading flag; afterwards no further report has any
    effect. *)
Theorem trigger_detaches (c : Component)
    (entries : list IntersectionObserverEntry) :
  observer c = Observing ->
  mounted c = true ->
  hasAnimated c = false ->
  (existsb isIntersecting entries = false ->
   step c (Intersection entries) = c)
  /\ (existsb isIntersecting entries = true ->
      let c' := step c (Intersection entries) in
      hasAnimated c' = true
      /\ observer c' = Disconnected
      /\ interval c' = Running 0
      /\ metricsData c' = metricsData c
      /\ loading c' = loading c
      /\ forall entries', step c' (Intersection entries') = c').
Proof.
  intros Ho Hm Hh. simpl. rewrite Ho, onIntersect_fold. split; intros He;
    rewrite He; [reflexivity |].
  destruct (setHasAnimated_true_cases c) as [E | (_ & _ & E)].
  - exfalso. destruct c as [md ld ha fv mo fp ob iv co]. simpl in *. subst.
    unfold setHasAnimated_true in E. simpl in E. discriminate E.
  - rewrite E, Ho. simpl. repeat split; reflexivity.
Qed.

Lemma trigger_detaches_witness :
  hasAnimated (step fresh visible) = true
  /\ observer (step fresh visible) = Disconnected.
Proof.
  destruct (trigger_detaches fresh [ {| isIntersecting := true |} ]
              eq_refl eq_refl eq_refl) as [_ H].
  destruct (H eq_refl) as (H1 & H2 & _). split; [exact H1 | exact H2].
Defined.

(** ** The loading view *)

Lemma loading_stays_down (c : Component) (ev : Event) :
  loading c = false -> loading (step c ev) = false.
Proof.
  intros Hl. destruct (is_fetch_event ev) eqn:Hf.
  - destruct c as [md ld ha fv mo fp ob iv co]. simpl in *. subst ld.
    destruct ev as [[data | err] | err | | |]; try discriminate; simpl;
      destruct fp; try reflexivity;
      unfold onData, onError, setLoading, setMetricsData; simpl;
      destruct mo; reflexivity.
  - destruct (step_not_fetch c ev Hf) as (E & _). now rewrite E.
Qed.

Lemma loading_without_fetch (evs : list Event) :
  forall c,
    forallb (fun ev => negb (is_fetch_event ev)) evs = true ->
    loading (run c evs) = loading c.
Proof.
  induction evs as [| ev evs IH]; intros c H; simpl in *; [reflexivity |].
  apply andb_prop in H as [Hev Hevs].
  rewrite (IH _ Hevs).
  apply step_not_fetch. now destruct (is_fetch_event ev).
Qed.

(** X14.  The loading view is shown from the mount until the fetch settles
    and never again: as long as no fetch callback has run the component
    renders the loading view, whatever else happens; when the fetch settles
    on a mounted component, with a catalog, a malformed body or a
    rejection alike, the loading flag goes down; and once down it stays
    down under every callback. *)
Theorem loading_until_settled (w : Window) (c0 : Component)
    (evs : list Event) :
  mount w = Ok c0 ->
  (forallb (fun ev => negb (is_fetch_event ev)) evs = true ->
   render (run c0 evs) = LoadingView)
  /\ (forall ev,
        forallb scroll_or_tick evs = true ->
        is_fetch_event ev = true ->
        loading (step (run c0 evs) ev) = false)
  /\ (forall ev,
        loading (run c0 evs) = false ->
        loading (step (run c0 evs) ev) = false).
Proof.
  intros Hm. split; [| split].
  - intros Hevs. unfold render.
    rewrite (loading_without_fetch evs c0 Hevs).
    apply mount_Ok in Hm as [_ ->]. reflexivity.
  - intros ev Hevs Hev.
    assert (H0 : awaiting_catalog c0).
    { apply mount_Ok in Hm as [_ ->]. repeat split; reflexivity. }
    destruct (awaiting_catalog_run evs c0 Hevs H0)
      as (_ & _ & Hp & Hmo & _).
    destruct (run c0 evs) as [md ld ha fv mo fp ob iv co]. simpl in *.
    subst mo fp.
    destruct ev as [[data | err] | err | | |]; try discriminate; reflexivity.
  - intros ev. apply loading_stays_down.
Qed.

Lemma loading_until_settled_witness :
  render (run fresh [visible; Tick; Tick]) = LoadingView
  /\ loading (step (run fresh [visible; Tick; Tick])
               (FetchFulfilled (JsonBody catalogB))) = false.
Proof.
  destruct (loading_until_settled browser fresh [visible; Tick; Tick] eq_refl)
    as (H1 & H2 & _).
  split; [apply H1; reflexivity | apply H2; reflexivity].
Defined.
